(** * Digitopia abuse-mitigation demo: a shallow embedding of [Sec3_Digitopia.js]

    The server keeps two process-wide tables, [penalties] and [reputation],
    both plain JavaScript objects used as maps from a user key to a record.
    Every protected route runs the middleware chain
    [detectTorVpn], [checkBlocked], a rate limiter, and the route's own
    handler.

    Modelling choices.
    - Numbers are the integers the program manipulates (millisecond
      timestamps, counters, scores) and the not-a-number value that
      arithmetic on [undefined] produces; integer arithmetic is that of
      the program as long as the values stay in the range where a double
      is exact, far beyond any timestamp.  [Math.round (n / d)] on an
      integer [n] and a positive integer constant [d] is the nearest
      integer with halves rounded towards plus infinity, which is
      [(2 * n + d) / (2 * d)] with floor division.  A number put in a
      message prints in decimal, as integers below ten to the 21 do.
    - The tables are plain objects, so [penalties[key]] looks [key] up
      among the own properties first and along the prototype chain next.
      The own properties are the records the program stores, a finite map
      [gmap string _].  The chain is [Object.prototype]: its twelve
      standard properties resolve to objects that are not records (eleven
      functions, and [Object.prototype] itself for [__proto__]), on which
      the program then sets and reads the fields it believes belong to a
      record; fields set on [Object.prototype] are in turn inherited by
      every object, the tables included.  The world keeps the fields set
      on those twelve objects.  The file runs in sloppy mode: an
      assignment to a property of a number is dropped.
    - [Date.now ()] is an oracle: the [n]-th reading made by the process
      returns [clock n], and the world counts the readings made so far.
      Nothing is assumed about [clock] unless a statement says so.
    - [unblockTime] is kept as the millisecond timestamp it is printed
      from; [toISOString] raises on a value that is not a valid time. *)

From Stdlib Require Import ZArith Lia Ascii String DecimalString.
From stdpp Require Import gmap strings list fin_maps.

Local Open Scope Z_scope.

(** ** JavaScript values and primitives used by the program *)

Module JS.

(** The values the program computes with: [undefined], the number that is
    not a number, and the integers. *)
Inductive value :=
| Undefined
| NaN
| Num (n : Z).

(** [Math.round (n / d)] for an integer [n] and a positive integer [d]. *)
Definition round_div (n d : Z) : Z := (2 * n + d) / (2 * d).

(** Truthiness of a number: zero is falsy. *)
Definition truthy_num (n : Z) : bool := negb (n =? 0).

(** Truthiness of a string: the empty string is falsy. *)
Definition truthy_str (s : string) : bool :=
  match s with
  | EmptyString => false
  | String _ _ => true
  end.

(** Truthiness of a property read that yields a string or [undefined]. *)
Definition truthy_prop (o : option string) : bool :=
  match o with
  | Some s => truthy_str s
  | None => false
  end.

(** [s.split (c)] for a one-character separator [c]. *)
Fixpoint split (c : Ascii.ascii) (s : string) : list string :=
  match s with
  | EmptyString => [EmptyString]
  | String a s' =>
      if Ascii.eqb a c then EmptyString :: split c s'
      else match split c s' with
           | h :: t => String a h :: t
           | [] => [String a EmptyString]
           end
  end.

(** [c.toLowerCase ()] on one byte of a string: the letters [A] to [Z]
    move to [a] to [z]; every other byte is kept.  The program only tests
    the result against an ASCII prefix, and no character outside ASCII
    lowers to an ASCII letter other than [k] and [i]. *)
Definition lower (c : Ascii.ascii) : Ascii.ascii :=
  let n := Ascii.nat_of_ascii c in
  if (65 <=? n)%nat && (n <=? 90)%nat then Ascii.ascii_of_nat (n + 32) else c.

(** [s.toLowerCase ()] *)
Fixpoint toLowerCase (s : string) : string :=
  match s with
  | EmptyString => EmptyString
  | String c s' => String (lower c) (toLowerCase s')
  end.

(** [s.startsWith (p)] *)
Definition startsWith (s p : string) : bool := String.prefix p s.

(** Truthiness of a value: [undefined], not-a-number and zero are falsy. *)
Definition truthy (v : value) : bool :=
  match v with
  | Num n => truthy_num n
  | _ => false
  end.

(** [a + b] on values that are numbers or [undefined]: [undefined]
    converts to not-a-number, which absorbs. *)
Definition add (a b : value) : value :=
  match a, b with
  | Num x, Num y => Num (x + y)
  | _, _ => NaN
  end.

(** [v === n] for an integer literal [n]. *)
Definition strictEq (v : value) (n : Z) : bool :=
  match v with
  | Num x => x =? n
  | _ => false
  end.

(** [v > n] and [v <= n]: false when [v] converts to not-a-number. *)
Definition gtb (v : value) (n : Z) : bool :=
  match v with
  | Num x => x >? n
  | _ => false
  end.

Definition leb (v : value) (n : Z) : bool :=
  match v with
  | Num x => x <=? n
  | _ => false
  end.

(** [Math.min (n, v)] and [Math.max (n, v)] for an integer literal [n]. *)
Definition min (n : Z) (v : value) : value :=
  match v with
  | Num x => Num (Z.min n x)
  | _ => NaN
  end.

Definition max (n : Z) (v : value) : value :=
  match v with
  | Num x => Num (Z.max n x)
  | _ => NaN
  end.

(** [new Date (v).toISOString ()]: the time value when it is a valid one,
    and [None] for the [RangeError] raised otherwise. *)
Definition validTime (t : Z) : bool :=
  (-8640000000000000 <=? t) && (t <=? 8640000000000000).

Definition toISOString (v : value) : option Z :=
  match v with
  | Num t => if validTime t then Some t else None
  | _ => None
  end.

(** An integer inside a template literal. *)
Definition toString (n : Z) : string := NilZero.string_of_int (Z.to_int n).

End JS.

(** ** Data model *)

(** One entry of [penalties]. *)
Record penalty := Penalty { violations : Z; blockedUntil : Z }.

(** One entry of [reputation]. *)
Record repRecord := Rep { score : Z; lastUpdated : Z }.

(** The three rate-limited routes; each owns one limiter instance. *)
Inductive action := Report | Browse | Upload.

#[global] Instance action_eq_dec : EqDecision action.
Proof. solve_decision. Defined.

#[global] Instance action_countable : Countable action.
Proof.
  refine (inj_countable'
            (fun a => match a with Report => 0%nat | Browse => 1%nat | Upload => 2%nat end)
            (fun n => match n with 0%nat => Report | 1%nat => Browse | _ => Upload end) _).
  by intros [].
Defined.

(** Per-key state of one limiter instance: the hits counted in the current
    window and the instant at which that window ends. *)
Record window := Window { totalHits : Z; resetTime : Z }.

(** The incoming request: its header fields (names in lower case, as Node
    delivers them), the [user] field of a JSON body, and the [isTorVpn]
    property that [detectTorVpn] attaches ([None] while it is undefined). *)
Record request := Request {
  headers : gmap string string;
  body_user : option string;
  isTorVpn : option bool
}.

(** The JSON answers the server sends, by status code.  In the JSON text a
    field that holds not-a-number prints as [null] and a field that holds
    [undefined] is left out.  [RespThrown] is what Express answers when the
    violation handler raises while it builds its answer. *)
Inductive response :=
| Resp403 (error : string) (blockedForMinutes remainingSeconds : Z)
| Resp429 (error : string) (limit blockedForMinutes : Z) (nviolations : JS.value)
          (unblockTime : Z) (rep : JS.value) (torVpnSuspected : option bool)
| Resp200 (message : option string) (rep : option JS.value)
          (torVpnSuspected : option bool)
| RespHealth
| RespSnapshot (ps : gmap string penalty) (rs : gmap string repRecord)
| Resp400
| RespCleared (user : string)
| RespThrown.

(** The four field names of the two kinds of record. *)
Inductive fieldName := Fviolations | FblockedUntil | Fscore | FlastUpdated.

(** The fields the program has set on an object that is not one of its
    records; [None] where the object has no such own property. *)
Record fields := Fields {
  own_violations : option JS.value;
  own_blockedUntil : option JS.value;
  own_score : option JS.value;
  own_lastUpdated : option JS.value
}.

Definition noFields : fields := Fields None None None None.

Definition getField (f : fieldName) (o : fields) : option JS.value :=
  match f with
  | Fviolations => own_violations o
  | FblockedUntil => own_blockedUntil o
  | Fscore => own_score o
  | FlastUpdated => own_lastUpdated o
  end.

Definition setField (f : fieldName) (v : JS.value) (o : fields) : fields :=
  match f with
  | Fviolations => Fields (Some v) (own_blockedUntil o) (own_score o) (own_lastUpdated o)
  | FblockedUntil => Fields (own_violations o) (Some v) (own_score o) (own_lastUpdated o)
  | Fscore => Fields (own_violations o) (own_blockedUntil o) (Some v) (own_lastUpdated o)
  | FlastUpdated => Fields (own_violations o) (own_blockedUntil o) (own_score o) (Some v)
  end.

(** The state of the process: the two tables of the program, the stores of
    the limiter instances, the fields set on the objects that the tables
    inherit (by the name under which a table reaches the object), and the
    number of clock readings made so far. *)
Record World := MkWorld {
  penalties : gmap string penalty;
  reputation : gmap string repRecord;
  limiterStore : gmap (action * string) window;
  inherited : gmap string fields;
  tick : nat
}.

Definition setPenalties (f : gmap string penalty -> gmap string penalty) (w : World) : World :=
  MkWorld (f (penalties w)) (reputation w) (limiterStore w) (inherited w) (tick w).

Definition setReputation (f : gmap string repRecord -> gmap string repRecord) (w : World) : World :=
  MkWorld (penalties w) (f (reputation w)) (limiterStore w) (inherited w) (tick w).

Definition setLimiterStore (f : gmap (action * string) window -> gmap (action * string) window)
    (w : World) : World :=
  MkWorld (penalties w) (reputation w) (f (limiterStore w)) (inherited w) (tick w).

Definition setInherited (f : gmap string fields -> gmap string fields) (w : World) : World :=
  MkWorld (penalties w) (reputation w) (limiterStore w) (f (inherited w)) (tick w).

Definition advance (w : World) : World :=
  MkWorld (penalties w) (reputation w) (limiterStore w) (inherited w) (S (tick w)).

(** ** State monad of the handlers *)

Definition M (A : Type) : Type := World -> A * World.

Definition ret {A} (a : A) : M A := fun w => (a, w).

Definition bind {A B} (m : M A) (k : A -> M B) : M B :=
  fun w => k (fst (m w)) (snd (m w)).

Definition gets {A} (f : World -> A) : M A := fun w => (f w, w).

Definition modify (f : World -> World) : M unit := fun w => (tt, f w).

Notation "'let*' x ':=' m 'in' k" := (bind m (fun x => k))
  (at level 10, x name, m at level 99, k at level 200).

Notation "m1 '>>' m2" := (bind m1 (fun _ => m2))
  (at level 100, m2 at level 200, right associativity).

Definition when (b : bool) (m : M unit) : M unit := if b then m else ret tt.

(** A middleware receives the request and the rest of the chain; it either
    answers itself or hands the request on. *)
Definition middleware : Type := request -> (request -> M response) -> M response.

(** ** Property lookup in the tables *)

(** The own property names of [Object.prototype]. *)
Definition protoNames : list string :=
  [ "constructor"; "__defineGetter__"; "__defineSetter__"; "hasOwnProperty";
    "__lookupGetter__"; "__lookupSetter__"; "isPrototypeOf";
    "propertyIsEnumerable"; "toString"; "valueOf"; "__proto__";
    "toLocaleString" ]%string.

Definition fieldOfName (key : string) : option fieldName :=
  if String.eqb key "violations" then Some Fviolations
  else if String.eqb key "blockedUntil" then Some FblockedUntil
  else if String.eqb key "score" then Some Fscore
  else if String.eqb key "lastUpdated" then Some FlastUpdated
  else None.

(** The fields set on the object that a table reaches under [name]. *)
Definition ownFields (w : World) (name : string) : fields :=
  match inherited w !! name with
  | Some o => o
  | None => noFields
  end.

(** [Object.prototype] is what a table reaches under [__proto__]. *)
Definition objectPrototype (w : World) : fields := ownFields w "__proto__".

(** A field read that ends on [Object.prototype]. *)
Definition protoField (w : World) (f : fieldName) : JS.value :=
  match getField f (objectPrototype w) with
  | Some v => v
  | None => JS.Undefined
  end.

(** A field read on one of the twelve objects: its own field, else the one
    it inherits from [Object.prototype]. *)
Definition objField (w : World) (name : string) (f : fieldName) : JS.value :=
  match getField f (ownFields w name) with
  | Some v => v
  | None => protoField w f
  end.

(** What [table[key]] evaluates to: a record of the table, one of the
    twelve objects, a number that [Object.prototype] holds under a field
    name, or [undefined]. *)
Inductive entry (R : Type) :=
| Own (r : R)
| Obj (name : string)
| Prim (v : JS.value)
| Absent.

Arguments Own {R} r.
Arguments Obj {R} name.
Arguments Prim {R} v.
Arguments Absent {R}.

(** The lookup along the prototype chain, for a key that is no own
    property of the table. *)
Definition inheritedEntry {R} (w : World) (key : string) : entry R :=
  if bool_decide (key ∈ protoNames) then Obj key
  else match fieldOfName key with
       | Some f =>
           match getField f (objectPrototype w) with
           | Some v => Prim v
           | None => Absent
           end
       | None => Absent
       end.

Definition penaltyEntry (w : World) (key : string) : entry penalty :=
  match penalties w !! key with
  | Some e => Own e
  | None => inheritedEntry w key
  end.

Definition reputationEntry (w : World) (key : string) : entry repRecord :=
  match reputation w !! key with
  | Some r => Own r
  | None => inheritedEntry w key
  end.

Definition truthyEntry {R} (e : entry R) : bool :=
  match e with
  | Own _ | Obj _ => true
  | Prim v => JS.truthy v
  | Absent => false
  end.

(** The own fields of the two kinds of record. *)
Definition penaltyGet (f : fieldName) (e : penalty) : option JS.value :=
  match f with
  | Fviolations => Some (JS.Num (violations e))
  | FblockedUntil => Some (JS.Num (blockedUntil e))
  | _ => None
  end.

Definition repGet (f : fieldName) (r : repRecord) : option JS.value :=
  match f with
  | Fscore => Some (JS.Num (score r))
  | FlastUpdated => Some (JS.Num (lastUpdated r))
  | _ => None
  end.

(** An assignment to a field of a record.  A record holds integers: the
    program only ever assigns to a record what it computed from integers
    (see [own_reads_are_integers]), so the last case is never taken. *)
Definition penaltySet (f : fieldName) (v : JS.value) (e : penalty) : penalty :=
  match f, v with
  | Fviolations, JS.Num z => Penalty z (blockedUntil e)
  | FblockedUntil, JS.Num z => Penalty (violations e) z
  | _, _ => e
  end.

Definition repSet (f : fieldName) (v : JS.value) (r : repRecord) : repRecord :=
  match f, v with
  | Fscore, JS.Num z => Rep z (lastUpdated r)
  | FlastUpdated, JS.Num z => Rep (score r) z
  | _, _ => r
  end.

(** [e.f] for what a lookup returned.  The program reads a field only after
    it has tested the lookup, so the last case is never taken. *)
Definition readEntry {R} (get : fieldName -> R -> option JS.value)
    (w : World) (e : entry R) (f : fieldName) : JS.value :=
  match e with
  | Own r => match get f r with Some v => v | None => protoField w f end
  | Obj name => objField w name f
  | Prim _ => protoField w f
  | Absent => JS.Undefined
  end.

(** [penalties[key].f] *)
Definition readPenalty (key : string) (f : fieldName) : M JS.value :=
  gets (fun w => readEntry penaltyGet w (penaltyEntry w key) f).

(** [penalties[key].f = v]: on a record it updates the record in the table,
    on one of the twelve objects it sets the field on that object, and on a
    number it does nothing. *)
Definition writePenalty (key : string) (f : fieldName) (v : JS.value) : M unit :=
  modify (fun w =>
    match penaltyEntry w key with
    | Own _ => setPenalties (alter (penaltySet f v) key) w
    | Obj name => setInherited (insert name (setField f v (ownFields w name))) w
    | Prim _ | Absent => w
    end).

(** [reputation[key].f] and [reputation[key].f = v] *)
Definition readReputation (key : string) (f : fieldName) : M JS.value :=
  gets (fun w => readEntry repGet w (reputationEntry w key) f).

Definition writeReputation (key : string) (f : fieldName) (v : JS.value) : M unit :=
  modify (fun w =>
    match reputationEntry w key with
    | Own _ => setReputation (alter (repSet f v) key) w
    | Obj name => setInherited (insert name (setField f v (ownFields w name))) w
    | Prim _ | Absent => w
    end).

(** ** Pure helpers of the program *)

Definition humanMinutes (ms : Z) : Z := JS.round_div ms 60000.

Definition computeBlockMs (v : JS.value) : Z :=
  if JS.strictEq v 1 then 1 * 60 * 1000
  else if JS.strictEq v 2 then 5 * 60 * 1000
  else 60 * 60 * 1000.

(** The decision of [detectTorVpn] on the three header reads. *)
Definition suspicious (hs : gmap string string) : bool :=
  let forwarded := hs !! "x-forwarded-for"%string in
  let via := hs !! "via"%string in
  let torHeader := hs !! "x-tor-exit-node"%string in
  let s1 := JS.truthy_prop forwarded || JS.truthy_prop via || JS.truthy_prop torHeader in
  let s2 :=
    match forwarded with
    | Some f => JS.truthy_str f && (1 <? Z.of_nat (length (JS.split ","%char f)))
    | None => false
    end in
  if s2 then true else s1.

(** [isArabic] reads the language header, with "en" standing in for a
    missing or empty one. *)
Definition isArabic (req : request) : bool :=
  let lang :=
    JS.toLowerCase
      (match headers req !! "accept-language"%string with
       | Some l => if JS.truthy_str l then l else "en"%string
       | None => "en"%string
       end) in
  JS.startsWith lang "ar".

(** The text of the 403 answer of [checkBlocked]. *)
Definition blockedMessage (req : request) (remainingMinutes : Z) : string :=
  let msgEn :=
    ("You are temporarily blocked. Please try again in " +:+ JS.toString remainingMinutes
     +:+ " minute" +:+ (if (remainingMinutes =? 1)%Z then EmptyString else "s") +:+ ".")%string in
  let msgAr :=
    if remainingMinutes =? 1
    then "أنت محظور مؤقتًا. حاول مرة أخرى بعد دقيقة واحدة."%string
    else ("أنت محظور مؤقتًا. حاول مرة أخرى بعد " +:+ JS.toString remainingMinutes +:+ " دقائق.")%string in
  if isArabic req then msgAr else msgEn.

(** The text of the 429 answer of the violation handler. *)
Definition limitMessage (req : request) (max blockMinutes : Z) : string :=
  let msgEn :=
    ("Rate limit exceeded (" +:+ JS.toString max
     +:+ " requests). You are temporarily blocked for " +:+ JS.toString blockMinutes
     +:+ " minute" +:+ (if (blockMinutes =? 1)%Z then EmptyString else "s") +:+ ".")%string in
  let msgAr :=
    if blockMinutes =? 1
    then ("تجاوزت الحد المسموح (" +:+ JS.toString max +:+ " طلبات). تم حظرك مؤقتًا لمدة دقيقة واحدة.")%string
    else ("تجاوزت الحد المسموح (" +:+ JS.toString max +:+ " طلبات). تم حظرك مؤقتًا لمدة " +:+ JS.toString blockMinutes
          +:+ " دقائق.")%string in
  if isArabic req then msgAr else msgEn.

(** The texts of the 200 answers of the report and upload routes. *)
Definition reportMessage (req : request) : string :=
  if isArabic req then "تم استلام البلاغ."%string else "Report received."%string.

Definition uploadMessage (req : request) : string :=
  if isArabic req then "تم رفع الملف بنجاح."%string else "File uploaded successfully."%string.

(** ** The program, over a clock and the key generator of the limiter package *)

Section Server.

(** [clock n] is what the [n]-th call of [Date.now ()] returns. *)
Variable clock : nat -> Z.

(** [ipKeyGenerator] is imported from the rate limiter package; the program
    only converts its result to a string. *)
Variable ipKeyGenerator : request -> string.

Definition nowMs : M Z := fun w => (clock (tick w), advance w).

Definition getUserKey (req : request) : string :=
  match headers req !! "x-user-id"%string with
  | Some u => if JS.truthy_str u then u else ipKeyGenerator req
  | None => ipKeyGenerator req
  end.

(** [req.isTorVpn = b] *)
Definition setIsTorVpn (b : bool) (req : request) : request :=
  Request (headers req) (body_user req) (Some b).

Definition detectTorVpn : middleware := fun req next =>
  next (setIsTorVpn (suspicious (headers req)) req).

(** *** Reputation *)

Definition updateReputation (userKey : string) (change : Z) : M JS.value :=
  let* ent := gets (fun w => reputationEntry w userKey) in
  (if truthyEntry ent then ret tt
   else
     let* t := nowMs in
     modify (setReputation (insert userKey (Rep 100 t)))) >>
  let* s := readReputation userKey Fscore in
  writeReputation userKey Fscore (JS.add s (JS.Num change)) >>
  let* t := nowMs in
  writeReputation userKey FlastUpdated (JS.Num t) >>
  let* s' := readReputation userKey Fscore in
  writeReputation userKey Fscore (JS.max 0 (JS.min 200 s')) >>
  ret JS.Undefined.

Definition getReputation (userKey : string) : M JS.value :=
  let* ent := gets (fun w => reputationEntry w userKey) in
  if truthyEntry ent then readReputation userKey Fscore else ret (JS.Num 100).

(** *** Admission *)

(** [entry.blockedUntil && entry.blockedUntil > now] *)
Definition stillBlocked (bu : JS.value) (now : Z) : bool :=
  JS.truthy bu && JS.gtb bu now.

(** [entry.blockedUntil && entry.blockedUntil <= now] *)
Definition blockExpired (bu : JS.value) (now : Z) : bool :=
  JS.truthy bu && JS.leb bu now.

(** [entry] is a reference to what [penalties[key]] holds; nothing is
    stored or deleted between the lookup and the uses of [entry], so its
    fields are read and set through the key. *)
Definition checkBlocked : middleware := fun req next =>
  let key := getUserKey req in
  let* entry := gets (fun w => penaltyEntry w key) in
  let* now := nowMs in
  let* bu := readPenalty key FblockedUntil in
  if truthyEntry entry && stillBlocked bu now then
    let remainingMs := match bu with JS.Num b => b - now | _ => 0 end in
    let remainingMinutes := humanMinutes remainingMs in
    ret (Resp403 (blockedMessage req remainingMinutes) remainingMinutes
                 (JS.round_div remainingMs 1000))
  else
    when (truthyEntry entry && blockExpired bu now)
         (writePenalty key FblockedUntil (JS.Num 0)) >>
    next req.

(** *** Violation handler *)

Definition rateLimitHandlerFactory (max : Z) : request -> M response := fun req =>
  let key := getUserKey req in
  let* now := nowMs in
  let* entry := gets (fun w => penaltyEntry w key) in
  when (negb (truthyEntry entry))
       (modify (setPenalties (insert key (Penalty 0 0)))) >>
  let* v := readPenalty key Fviolations in
  writePenalty key Fviolations (JS.add v (JS.Num 1)) >>
  let* v1 := readPenalty key Fviolations in
  let blockMs := computeBlockMs v1 in
  writePenalty key FblockedUntil (JS.Num (now + blockMs)) >>
  let blockMinutes := humanMinutes blockMs in
  updateReputation key (-10) >>
  let* v2 := readPenalty key Fviolations in
  let* bu := readPenalty key FblockedUntil in
  match JS.toISOString bu with
  | Some unblockTime =>
      let* r := getReputation key in
      ret (Resp429 (limitMessage req max blockMinutes) max blockMinutes v2 unblockTime r
                   (isTorVpn req))
  | None => ret RespThrown
  end.

(** *** The window counter *)

(** Modelled from the spec: the store of a limiter of the
    express-rate-limit package, whose code is not among the sources.  Per
    key it holds the number of requests counted in the current window and
    the end of that window; a hit at [now] starts a fresh window of
    [windowMs] when there is none or when the clock has reached its end,
    and is counted in the current window otherwise. *)
Definition countHit (c : option window) (now windowMs : Z) : window :=
  match c with
  | Some cl => if resetTime cl <=? now then Window 1 (now + windowMs)
               else Window (totalHits cl + 1) (resetTime cl)
  | None => Window 1 (now + windowMs)
  end.

(** Modelled from the spec: [rateLimit] is the factory exported by the
    express-rate-limit package, whose code is not among the sources.  The
    middleware it returns counts every request it sees against the key that
    [keyGenerator] derives; the request that makes the count exceed [max]
    is itself counted and is answered by [handler], every other request is
    handed on.  [store] names the store of the instance, which is a map of
    its own and not a plain object. *)
Definition rateLimit (store : action) (windowMs max : Z)
    (keyGenerator : request -> string) (handler : request -> M response) : middleware :=
  fun req next =>
    let key := keyGenerator req in
    let* now := nowMs in
    let* c := gets (fun w => limiterStore w !! (store, key)) in
    let c' := countHit c now windowMs in
    modify (setLimiterStore (insert (store, key) c')) >>
    if totalHits c' >? max then handler req else next req.

(** [store] names the limiter instance that the call creates. *)
Definition makeLimiter (store : action) (windowMs max : Z) : middleware :=
  rateLimit store windowMs max getUserKey (rateLimitHandlerFactory max).

Definition reportLimiter : middleware := makeLimiter Report (24 * 60 * 60 * 1000) 5.
Definition browseLimiter : middleware := makeLimiter Browse (60 * 60 * 1000) 100.
Definition uploadLimiter : middleware := makeLimiter Upload (24 * 60 * 60 * 1000) 10.

(** *** Routes *)

Definition get_health : request -> M response := fun req =>
  detectTorVpn req (fun _ => ret RespHealth).

Definition post_report : request -> M response := fun req =>
  detectTorVpn req (fun req => checkBlocked req (fun req => reportLimiter req (fun req =>
    updateReputation (getUserKey req) 5 >>
    let* r := getReputation (getUserKey req) in
    ret (Resp200 (Some (reportMessage req)) (Some r) (isTorVpn req))))).

Definition get_browse : request -> M response := fun req =>
  detectTorVpn req (fun req => checkBlocked req (fun req => browseLimiter req (fun req =>
    ret (Resp200 None None (isTorVpn req))))).

Definition post_upload : request -> M response := fun req =>
  detectTorVpn req (fun req => checkBlocked req (fun req => uploadLimiter req (fun req =>
    updateReputation (getUserKey req) 2 >>
    let* r := getReputation (getUserKey req) in
    ret (Resp200 (Some (uploadMessage req)) (Some r) (isTorVpn req))))).

Definition get_admin_penalties : request -> M response := fun req =>
  detectTorVpn req (fun _ =>
    let* ps := gets penalties in
    let* rs := gets reputation in
    ret (RespSnapshot ps rs)).

Definition post_admin_clear : request -> M response := fun req =>
  detectTorVpn req (fun req =>
    match body_user req with
    | Some user =>
        if JS.truthy_str user then
          modify (setPenalties (delete user)) >>
          modify (setReputation (delete user)) >>
          ret (RespCleared user)
        else ret Resp400
    | None => ret Resp400
    end).

(** The routing table of the application. *)
Inductive endpoint :=
| GetHealth | PostReport | GetBrowse | PostUpload | GetAdminPenalties | PostAdminClear.

Definition serve (e : endpoint) : request -> M response :=
  match e with
  | GetHealth => get_health
  | PostReport => post_report
  | GetBrowse => get_browse
  | PostUpload => post_upload
  | GetAdminPenalties => get_admin_penalties
  | PostAdminClear => post_admin_clear
  end.

(** The routes that are mounted behind [checkBlocked] and a limiter. *)
Definition protected (e : endpoint) : bool :=
  match e with
  | PostReport | GetBrowse | PostUpload => true
  | _ => false
  end.

(** ** Vocabulary of the statements *)

(** Serving a list of requests one after the other. *)
Fixpoint runAll (f : request -> M response) (rs : list request) : M (list response) :=
  match rs with
  | [] => ret []
  | r :: rs' =>
      let* x := f r in
      let* xs := runAll f rs' in
      ret (x :: xs)
  end.

(** The violation count on record for a key; a key without a record has
    none. *)
Definition violationsOf (w : World) (key : string) : Z :=
  match penalties w !! key with
  | Some e => violations e
  | None => 0
  end.

(** The score on record for a key; a key without a record has the
    default. *)
Definition scoreOf (w : World) (key : string) : Z :=
  match reputation w !! key with
  | Some r => score r
  | None => 100
  end.

(** Same tables, whatever the number of clock readings. *)
Definition sameTables (w w' : World) : Prop :=
  penalties w' = penalties w /\ reputation w' = reputation w /\
  limiterStore w' = limiterStore w.

Definition is403 (r : response) : bool :=
  match r with Resp403 _ _ _ => true | _ => false end.

(** The limiter reported a crossing: the answer is the one of the
    violation handler, its 429 or the error it raised while building it. *)
Definition thresholdExceeded (r : response) : bool :=
  match r with
  | Resp429 _ _ _ _ _ _ _ => true
  | RespThrown => true
  | _ => false
  end.

(** A key that names nothing along the prototype chain of the tables:
    none of the twelve properties of [Object.prototype], and none of the
    four field names that a request keyed [__proto__] makes the program
    set on [Object.prototype]. *)
Definition ordinaryKey (key : string) : bool :=
  negb (bool_decide (key ∈ protoNames)) &&
  match fieldOfName key with Some _ => false | None => true end.

(** What [entry && entry.blockedUntil] evaluates to in [checkBlocked]. *)
Definition blockedUntilOf (w : World) (key : string) : JS.value :=
  if truthyEntry (penaltyEntry w key)
  then readEntry penaltyGet w (penaltyEntry w key) FblockedUntil
  else JS.Undefined.

(** A sequence of reputation adjustments for one key. *)
Fixpoint adjustAll (key : string) (deltas : list Z) : M unit :=
  match deltas with
  | [] => ret tt
  | d :: ds => updateReputation key d >> adjustAll key ds
  end.

(** [Math.max (0, Math.min (200, s))] on an integer. *)
Definition clampScore (s : Z) : Z := Z.max 0 (Z.min 200 s).

(** A computation never lowers the violation count on record for a key. *)
Definition countsGrow {A} (m : M A) : Prop :=
  forall w k, violationsOf w k <= violationsOf (snd (m w)) k.

(** The end of the handler, once the expiry has been assigned. *)
Definition answer429 (max : Z) (req : request) (blockMs : Z) : M response :=
  let key := getUserKey req in
  let blockMinutes := humanMinutes blockMs in
  updateReputation key (-10) >>
  let* v2 := readPenalty key Fviolations in
  let* bu := readPenalty key FblockedUntil in
  match JS.toISOString bu with
  | Some unblockTime =>
      let* r := getReputation key in
      ret (Resp429 (limitMessage req max blockMinutes) max blockMinutes v2 unblockTime r
                   (isTorVpn req))
  | None => ret RespThrown
  end.

(** The handler of a protected route: an optional reputation reward with
    the text that goes with it, then the 200 answer. *)
Definition rewardHandler (reward : option (Z * (request -> string)))
    : request -> M response := fun req =>
  match reward with
  | Some (d, text) =>
      updateReputation (getUserKey req) d >>
      let* r := getReputation (getUserKey req) in
      ret (Resp200 (Some (text req)) (Some r) (isTorVpn req))
  | None => ret (Resp200 None None (isTorVpn req))
  end.

(** The shape shared by the three protected routes, for any limiter
    configuration. *)
Definition protectedRoute (store : action) (windowMs max : Z)
    (reward : option (Z * (request -> string))) : request -> M response := fun req =>
  detectTorVpn req (fun req => checkBlocked req (fun req =>
    makeLimiter store windowMs max req (rewardHandler reward))).

(** The request as the chain sees it after [detectTorVpn]. *)
Definition tagged (req : request) : request :=
  setIsTorVpn (suspicious (headers req)) req.


(** The sum of a list of deltas. *)
Definition sumDeltas (ds : list Z) : Z := foldr Z.add 0 ds.

(** The answer with its [torVpnSuspected] field blanked. *)
Definition withoutFlag (r : response) : response :=
  match r with
  | Resp429 t l m n u rp _ => Resp429 t l m n u rp None
  | Resp200 t rp _ => Resp200 t rp None
  | other => other
  end.

(** Two outcomes with the same world and, when [L] holds, the same answer
    apart from its [torVpnSuspected] field. *)
Definition sameTreatment (L : Prop) (x y : response * World) : Prop :=
  snd x = snd y /\ (L -> withoutFlag (fst x) = withoutFlag (fst y)).

(** The records the program can have stored: a penalty record counts at
    least one violation and a score lies within its bounds. *)
Definition wellFormed (w : World) : Prop :=
  map_Forall (fun _ e => 1 <= violations e) (penalties w) /\
  map_Forall (fun _ r => 0 <= score r <= 200) (reputation w).

(** A computation keeps the stored records well formed. *)
Definition keepsWellFormed {A} (m : M A) : Prop :=
  forall w, wellFormed w -> wellFormed (snd (m w)).

(** Serving a sequence of requests, each on its route. *)
Fixpoint serveAll (trace : list (endpoint * request)) : M (list response) :=
  match trace with
  | [] => ret []
  | (ep, r) :: rest =>
      let* x := serve ep r in
      let* xs := serveAll rest in
      ret (x :: xs)
  end.

(** Sample data for the instances below. *)
Definition sampleClock (n : nat) : Z := 1700000000000 + 1000 * Z.of_nat n.

Definition sampleIpKey (_ : request) : string := "203.0.113.7"%string.

Definition requestOf (user : string) : request :=
  Request {[ "x-user-id"%string := user ]} None None.

Definition clearRequest (user : string) : request :=
  Request ∅ (Some user) None.

Definition emptyWorld : World := MkWorld ∅ ∅ ∅ ∅ 0.

(** Worlds of the instances: "bob" blocked for another minute, for another
    twenty seconds, and with a block that ran out; and "alice" with a
    window of the report limiter that ended long ago. *)
Definition bobBlocked : World :=
  MkWorld {[ "bob"%string := Penalty 1 1700000060000 ]} ∅ ∅ ∅ 0.

Definition bobAlmostFree : World :=
  MkWorld {[ "bob"%string := Penalty 1 1700000020000 ]} ∅ ∅ ∅ 0.

Definition bobExpired : World :=
  MkWorld {[ "bob"%string := Penalty 2 1699999000000 ]} ∅ ∅ ∅ 0.


(** * Properties *)

(** ** Running the monad *)

Lemma bind_run {A B} (m : M A) (k : A -> M B) w :
  bind m k w = k (fst (m w)) (snd (m w)).
Proof. reflexivity. Qed.

Lemma bind_ret {A B} (a : A) (k : A -> M B) w : bind (ret a) k w = k a w.
Proof. reflexivity. Qed.

Lemma bind_gets {A B} (f : World -> A) (k : A -> M B) w : bind (gets f) k w = k (f w) w.
Proof. reflexivity. Qed.

Lemma bind_modify {B} (f : World -> World) (k : unit -> M B) w :
  bind (modify f) k w = k tt (f w).
Proof. reflexivity. Qed.

Lemma bind_nowMs {B} (k : Z -> M B) w : bind nowMs k w = k (clock (tick w)) (advance w).
Proof. reflexivity. Qed.

(** ** Lookups that reach a record, and lookups that do not *)

Lemma inheritedEntry_ordinary {R} w key :
  ordinaryKey key = true -> @inheritedEntry R w key = Absent.
Proof.
  unfold ordinaryKey, inheritedEntry. intros H.
  apply andb_true_iff in H as [H1 H2]. apply negb_true_iff in H1. rewrite H1.
  by destruct (fieldOfName key).
Qed.

Lemma truthy_inherited_ordinary {R} w key :
  ordinaryKey key = true -> truthyEntry (@inheritedEntry R w key) = false.
Proof. intros H. by rewrite inheritedEntry_ordinary. Qed.

(** What the chain yields does not depend on the kind of record asked for. *)
Lemma truthy_inherited_any {R R'} w key :
  truthyEntry (@inheritedEntry R w key) = truthyEntry (@inheritedEntry R' w key).
Proof.
  unfold inheritedEntry. destruct (bool_decide _); [done|].
  destruct (fieldOfName key); [|done]. by destruct (getField _ _).
Qed.

Lemma penaltyEntry_own w key e :
  penalties w !! key = Some e -> penaltyEntry w key = Own e.
Proof. unfold penaltyEntry. by intros ->. Qed.

Lemma reputationEntry_own w key r :
  reputation w !! key = Some r -> reputationEntry w key = Own r.
Proof. unfold reputationEntry. by intros ->. Qed.

(** A record of a table holds integers, so what the program reads from it,
    increments or clamps, and assigns back is an integer. *)
Lemma own_reads_are_integers w key :
  (forall e, penalties w !! key = Some e ->
     fst (readPenalty key Fviolations w) = JS.Num (violations e) /\
     fst (readPenalty key FblockedUntil w) = JS.Num (blockedUntil e)) /\
  (forall r, reputation w !! key = Some r ->
     fst (readReputation key Fscore w) = JS.Num (score r) /\
     fst (readReputation key FlastUpdated w) = JS.Num (lastUpdated r)).
Proof.
  split; intros x Hx.
  - unfold readPenalty, gets. cbn [fst]. by rewrite (penaltyEntry_own _ _ _ Hx).
  - unfold readReputation, gets. cbn [fst]. by rewrite (reputationEntry_own _ _ _ Hx).
Qed.

Lemma readPenalty_own w key e f v :
  penalties w !! key = Some e -> penaltyGet f e = Some v ->
  readPenalty key f w = (v, w).
Proof.
  intros He Hf. unfold readPenalty, gets. rewrite (penaltyEntry_own _ _ _ He).
  cbn [readEntry]. by rewrite Hf.
Qed.

Lemma writePenalty_own w key e f v :
  penalties w !! key = Some e ->
  writePenalty key f v w = (tt, setPenalties (insert key (penaltySet f v e)) w).
Proof.
  intros He. unfold writePenalty, modify. rewrite (penaltyEntry_own _ _ _ He).
  unfold setPenalties. by rewrite (alter_alt_Some _ _ _ _ He).
Qed.

Lemma readReputation_own w key r f v :
  reputation w !! key = Some r -> repGet f r = Some v ->
  readReputation key f w = (v, w).
Proof.
  intros He Hf. unfold readReputation, gets. rewrite (reputationEntry_own _ _ _ He).
  cbn [readEntry]. by rewrite Hf.
Qed.

Lemma writeReputation_own w key r f v :
  reputation w !! key = Some r ->
  writeReputation key f v w = (tt, setReputation (insert key (repSet f v r)) w).
Proof.
  intros He. unfold writeReputation, modify. rewrite (reputationEntry_own _ _ _ He).
  unfold setReputation. by rewrite (alter_alt_Some _ _ _ _ He).
Qed.

(** An assignment through a key that reaches no record leaves the tables,
    the limiter stores and the clock alone. *)
Lemma writePenalty_no_record w key f v :
  penalties w !! key = None ->
  exists inh,
    writePenalty key f v w =
      (tt, MkWorld (penalties w) (reputation w) (limiterStore w) inh (tick w)).
Proof.
  intros He. unfold writePenalty, modify, penaltyEntry. rewrite He.
  destruct (inheritedEntry w key) as [r|name|u|].
  - exists (inherited w). unfold setPenalties. by rewrite alter_alt, He.
  - by exists (<[name := setField f v (ownFields w name)]> (inherited w)).
  - exists (inherited w). by destruct w.
  - exists (inherited w). by destruct w.
Qed.

Lemma writeReputation_no_record w key f v :
  reputation w !! key = None ->
  exists inh,
    writeReputation key f v w =
      (tt, MkWorld (penalties w) (reputation w) (limiterStore w) inh (tick w)).
Proof.
  intros He. unfold writeReputation, modify, reputationEntry. rewrite He.
  destruct (inheritedEntry w key) as [r|name|u|].
  - exists (inherited w). unfold setReputation. by rewrite alter_alt, He.
  - by exists (<[name := setField f v (ownFields w name)]> (inherited w)).
  - exists (inherited w). by destruct w.
  - exists (inherited w). by destruct w.
Qed.

(** ** Admission *)

Lemma stillBlocked_true bu now :
  stillBlocked bu now = true <-> exists b, bu = JS.Num b /\ b <> 0 /\ now < b.
Proof.
  unfold stillBlocked, JS.truthy, JS.truthy_num, JS.gtb. split.
  - destruct bu as [| |b]; try discriminate. intros H.
    apply andb_true_iff in H as [H1 H2].
    apply negb_true_iff, Z.eqb_neq in H1. apply Z.gtb_lt in H2. eauto.
  - intros (b & -> & H1 & H2). apply andb_true_iff. split.
    + by apply negb_true_iff, Z.eqb_neq.
    + by apply Z.gtb_lt.
Qed.

Lemma blockExpired_true bu now :
  blockExpired bu now = true <-> exists b, bu = JS.Num b /\ b <> 0 /\ b <= now.
Proof.
  unfold blockExpired, JS.truthy, JS.truthy_num, JS.leb. split.
  - destruct bu as [| |b]; try discriminate. intros H.
    apply andb_true_iff in H as [H1 H2].
    apply negb_true_iff, Z.eqb_neq in H1. apply Z.leb_le in H2. eauto.
  - intros (b & -> & H1 & H2). apply andb_true_iff. split.
    + by apply negb_true_iff, Z.eqb_neq.
    + by apply Z.leb_le.
Qed.

Lemma blockedUntilOf_own w key e :
  penalties w !! key = Some e -> blockedUntilOf w key = JS.Num (blockedUntil e).
Proof. intros He. unfold blockedUntilOf. by rewrite (penaltyEntry_own _ _ _ He). Qed.

(** What [checkBlocked] does, for every key: it answers 403 itself while
    the expiry it reads is set and later than now, and otherwise hands the
    request on, after assigning 0 to an expiry that is set and has passed. *)
Lemma checkBlocked_run req next w :
  let key := getUserKey req in
  let now := clock (tick w) in
  let bu := blockedUntilOf w key in
  checkBlocked req next w =
    if stillBlocked bu now
    then
      let remainingMs := match bu with JS.Num b => b - now | _ => 0 end in
      (Resp403 (blockedMessage req (humanMinutes remainingMs)) (humanMinutes remainingMs)
               (JS.round_div remainingMs 1000),
       advance w)
    else
      next req
        (if blockExpired bu now
         then snd (writePenalty key FblockedUntil (JS.Num 0) (advance w))
         else advance w).
Proof.
  intros key now bu. subst bu. unfold checkBlocked. fold key.
  rewrite bind_gets, bind_nowMs. fold now. unfold readPenalty. rewrite bind_gets.
  unfold blockedUntilOf.
  change (penaltyEntry (advance w) key) with (penaltyEntry w key).
  change (readEntry penaltyGet (advance w)) with (readEntry penaltyGet w).
  destruct (truthyEntry (penaltyEntry w key)); cbn [andb].
  - destruct (stillBlocked _ now); [reflexivity|].
    unfold when. destruct (blockExpired _ now); reflexivity.
  - reflexivity.
Qed.

(** While the block lasts, [checkBlocked] answers 403 itself and touches
    nothing but the clock. *)
Lemma checkBlocked_deny req next w e :
  penalties w !! getUserKey req = Some e ->
  blockedUntil e <> 0 ->
  clock (tick w) < blockedUntil e ->
  checkBlocked req next w =
    (Resp403 (blockedMessage req (humanMinutes (blockedUntil e - clock (tick w))))
             (humanMinutes (blockedUntil e - clock (tick w)))
             (JS.round_div (blockedUntil e - clock (tick w)) 1000),
     advance w).
Proof.
  intros He Hnz Hlt. rewrite checkBlocked_run. cbv zeta.
  rewrite (blockedUntilOf_own _ _ _ He).
  assert (stillBlocked (JS.Num (blockedUntil e)) (clock (tick w)) = true) as ->
    by (apply stillBlocked_true; eauto).
  reflexivity.
Qed.

(** Assigning 0 to the expiry of a record. *)
Lemma clear_own_block w key e :
  penalties w !! key = Some e ->
  snd (writePenalty key FblockedUntil (JS.Num 0) (advance w)) =
    MkWorld (<[key := Penalty (violations e) 0]> (penalties w)) (reputation w)
            (limiterStore w) (inherited w) (S (tick w)).
Proof.
  intros He. rewrite (writePenalty_own (advance w) key e) by exact He. reflexivity.
Qed.

(** ** Serving several requests *)

Lemma runAll_cons (f : request -> M response) r rs w :
  runAll f (r :: rs) w =
    (fst (f r w) :: fst (runAll f rs (snd (f r w))), snd (runAll f rs (snd (f r w)))).
Proof. reflexivity. Qed.

(** Requests of one blocked user, served one after the other while the
    block lasts, are all refused and leave the three tables as they were. *)
Lemma runAll_checkBlocked_blocked next key e (reqs : list request) : forall w,
  Forall (fun r => getUserKey r = key) reqs ->
  penalties w !! key = Some e ->
  blockedUntil e <> 0 ->
  (forall i, (i < length reqs)%nat -> clock (tick w + i) < blockedUntil e) ->
  Forall (fun x => is403 x = true) (fst (runAll (fun r => checkBlocked r next) reqs w)) /\
  length (fst (runAll (fun r => checkBlocked r next) reqs w)) = length reqs /\
  sameTables w (snd (runAll (fun r => checkBlocked r next) reqs w)) /\
  tick (snd (runAll (fun r => checkBlocked r next) reqs w)) = (tick w + length reqs)%nat.
Proof.
  induction reqs as [|r reqs IH]; intros w Hk He Hnz Hclk.
  - cbn. unfold sameTables. by rewrite Nat.add_0_r.
  - apply Forall_cons in Hk as [Hr Hk].
    assert (clock (tick w) < blockedUntil e) as H0.
    { specialize (Hclk 0%nat). rewrite Nat.add_0_r in Hclk. apply Hclk. cbn. lia. }
    rewrite !runAll_cons. rewrite <- Hr in He.
    rewrite (checkBlocked_deny r next w e He Hnz H0). cbn [fst snd].
    rewrite Hr in He.
    destruct (IH (advance w) Hk He Hnz) as (I1 & I2 & I3 & I4).
    { intros i Hi. cbn [advance tick]. replace (S (tick w) + i)%nat with (tick w + S i)%nat by lia.
      apply Hclk. cbn. lia. }
    repeat split.
    + by constructor.
    + cbn [length]. by rewrite I2.
    + apply I3.
    + apply I3.
    + apply I3.
    + rewrite I4. cbn. lia.
Qed.

(** C3: while [now < blockedUntil] for a record whose [blockedUntil] is
    set, [checkBlocked] answers 403 with the remaining time
    [blockedUntil - now] (reported in minutes and in seconds, and in the
    text) and changes no table; any number of such calls made while the
    block lasts are all refused and leave the violation count as it was;
    and a request is refused by [checkBlocked] exactly when the expiry that
    its key reaches is set and later than [now], which for a key with a
    record is the [blockedUntil] of the record. *)
Theorem checkBlocked_denies_while_blocked req next w e :
  penalties w !! getUserKey req = Some e ->
  blockedUntil e <> 0 ->
  clock (tick w) < blockedUntil e ->
  let remainingMs := blockedUntil e - clock (tick w) in
  checkBlocked req next w =
    (Resp403 (blockedMessage req (humanMinutes remainingMs)) (humanMinutes remainingMs)
             (JS.round_div remainingMs 1000),
     advance w) /\
  (forall reqs : list request,
      Forall (fun r => getUserKey r = getUserKey req) reqs ->
      (forall i, (i < length reqs)%nat -> clock (tick w + i) < blockedUntil e) ->
      let run := runAll (fun r => checkBlocked r next) reqs w in
      Forall (fun x => is403 x = true) (fst run) /\
      length (fst run) = length reqs /\
      sameTables w (snd run) /\
      violationsOf (snd run) (getUserKey req) = violations e) /\
  (forall (req' : request) (w' : World),
      (forall r v, is403 (fst (next r v)) = false) ->
      (is403 (fst (checkBlocked req' next w')) = true <->
       exists b, blockedUntilOf w' (getUserKey req') = JS.Num b /\
                 b <> 0 /\ clock (tick w') < b) /\
      (forall e', penalties w' !! getUserKey req' = Some e' ->
         (is403 (fst (checkBlocked req' next w')) = true <->
          blockedUntil e' <> 0 /\ clock (tick w') < blockedUntil e'))).
Proof.
  intros He Hnz Hlt remainingMs. split; [|split].
  - by apply checkBlocked_deny.
  - intros reqs Hk Hclk run.
    destruct (runAll_checkBlocked_blocked next (getUserKey req) e reqs w Hk He Hnz Hclk)
      as (I1 & I2 & I3 & _).
    repeat split; try done; try apply I3.
    unfold violationsOf. subst run. destruct I3 as (-> & _). by rewrite He.
  - intros req' w' Hnext.
    assert (is403 (fst (checkBlocked req' next w')) = true <->
            exists b, blockedUntilOf w' (getUserKey req') = JS.Num b /\
                      b <> 0 /\ clock (tick w') < b) as Hiff.
    { rewrite <- stillBlocked_true. rewrite checkBlocked_run. cbv zeta.
      destruct (stillBlocked _ _); [done|]. by rewrite Hnext. }
    split; [exact Hiff|].
    intros e' He'. rewrite Hiff, (blockedUntilOf_own _ _ _ He'). split.
    + intros (b & Hb & ? & ?). by simplify_eq.
    + intros [? ?]. eauto.
Qed.

(** ** Rounding *)

(** [JS.round_div n d] is the integer nearest to [n / d], halves going up. *)
Lemma round_div_nearest n d :
  0 < d ->
  2 * d * JS.round_div n d - d <= 2 * n < 2 * d * JS.round_div n d + d.
Proof.
  intros Hd. unfold JS.round_div.
  pose proof (Z.div_mod (2 * n + d) (2 * d) ltac:(lia)) as Hdm.
  pose proof (Z.mod_pos_bound (2 * n + d) (2 * d) ltac:(lia)) as Hb.
  lia.
Qed.

(** C10: the minutes figure of a 403 answer is the remaining time in
    milliseconds divided by 60000 and rounded to the nearest integer; so a
    key that is still blocked for less than 30000 ms is refused with
    [blockedForMinutes = 0].  This is so for a key that is blocked by its
    record, and for whatever expiry [checkBlocked] reads for a key. *)
Theorem deny_reports_rounded_minutes req next w e :
  penalties w !! getUserKey req = Some e ->
  blockedUntil e <> 0 ->
  clock (tick w) < blockedUntil e ->
  let remainingMs := blockedUntil e - clock (tick w) in
  (exists m s,
     checkBlocked req next w = (Resp403 (blockedMessage req m) m s, advance w) /\
     60000 * m - 30000 <= remainingMs < 60000 * m + 30000 /\
     (remainingMs < 30000 -> m = 0)) /\
  (forall (req' : request) (w' : World) b,
     blockedUntilOf w' (getUserKey req') = JS.Num b ->
     b <> 0 ->
     clock (tick w') < b ->
     exists m s,
       checkBlocked req' next w' = (Resp403 (blockedMessage req' m) m s, advance w') /\
       60000 * m - 30000 <= b - clock (tick w') < 60000 * m + 30000 /\
       (b - clock (tick w') < 30000 -> m = 0)).
Proof.
  intros He Hnz Hlt remainingMs.
  assert (forall (req' : request) (w' : World) b,
     blockedUntilOf w' (getUserKey req') = JS.Num b ->
     b <> 0 ->
     clock (tick w') < b ->
     exists m s,
       checkBlocked req' next w' = (Resp403 (blockedMessage req' m) m s, advance w') /\
       60000 * m - 30000 <= b - clock (tick w') < 60000 * m + 30000 /\
       (b - clock (tick w') < 30000 -> m = 0)) as Hgen.
  { intros req' w' b Hb Hbz Hblt.
    exists (humanMinutes (b - clock (tick w'))), (JS.round_div (b - clock (tick w')) 1000).
    split.
    - rewrite checkBlocked_run. cbv zeta. rewrite Hb.
      assert (stillBlocked (JS.Num b) (clock (tick w')) = true) as ->
        by (apply stillBlocked_true; eauto).
      reflexivity.
    - pose proof (round_div_nearest (b - clock (tick w')) 60000 ltac:(lia)) as Hr.
      fold (humanMinutes (b - clock (tick w'))) in Hr.
      split; [lia|]. intros Hsmall. lia. }
  split; [|exact Hgen].
  apply (Hgen req w (blockedUntil e)); [by apply blockedUntilOf_own|done|done].
Qed.

(** ** Reputation *)

Lemma bind_readReputation_own {B} w key r f v (k : JS.value -> M B) :
  reputation w !! key = Some r -> repGet f r = Some v ->
  bind (readReputation key f) k w = k v w.
Proof. intros Hr Hf. by rewrite bind_run, (readReputation_own w key r f v Hr Hf). Qed.

Lemma bind_writeReputation_own {B} w key r f v (k : unit -> M B) :
  reputation w !! key = Some r ->
  bind (writeReputation key f v) k w = k tt (setReputation (insert key (repSet f v r)) w).
Proof. intros Hr. by rewrite bind_run, (writeReputation_own w key r f v Hr). Qed.

(** The steps of [updateReputation] on a key that has a record. *)
Lemma updateReputation_on_record key change w r0 :
  reputation w !! key = Some r0 ->
  (let* s := readReputation key Fscore in
   writeReputation key Fscore (JS.add s (JS.Num change)) >>
   let* t := nowMs in
   writeReputation key FlastUpdated (JS.Num t) >>
   let* s' := readReputation key Fscore in
   writeReputation key Fscore (JS.max 0 (JS.min 200 s')) >>
   ret JS.Undefined) w =
  (JS.Undefined,
   MkWorld (penalties w)
           (<[key := Rep (Z.max 0 (Z.min 200 (score r0 + change))) (clock (tick w))]>
              (reputation w))
           (limiterStore w) (inherited w) (S (tick w))).
Proof.
  intros Hr.
  rewrite (bind_readReputation_own w key r0 Fscore _ _ Hr eq_refl).
  rewrite (bind_writeReputation_own w key r0 _ _ _ Hr).
  rewrite bind_nowMs.
  erewrite bind_writeReputation_own; [|apply lookup_insert_eq].
  erewrite bind_readReputation_own; [|apply lookup_insert_eq|reflexivity].
  erewrite bind_writeReputation_own; [|apply lookup_insert_eq].
  unfold ret, setReputation, advance. cbn.
  by rewrite !insert_insert_eq.
Qed.

(** What one call of [updateReputation] does when the key has a record, or
    reaches nothing truthy along the chain so that a record is created. *)
Lemma updateReputation_run key change w :
  (reputation w !! key = None ->
   truthyEntry (@inheritedEntry repRecord w key) = false) ->
  updateReputation key change w =
    (JS.Undefined,
     match reputation w !! key with
     | None =>
         MkWorld (penalties w)
                 (<[key := Rep (clampScore (100 + change)) (clock (S (tick w)))]> (reputation w))
                 (limiterStore w) (inherited w) (S (S (tick w)))
     | Some r =>
         MkWorld (penalties w)
                 (<[key := Rep (clampScore (score r + change)) (clock (tick w))]> (reputation w))
                 (limiterStore w) (inherited w) (S (tick w))
     end).
Proof.
  intros Hplain. unfold updateReputation, clampScore. rewrite bind_gets.
  unfold reputationEntry at 1.
  destruct (reputation w !! key) as [r|] eqn:Hr.
  - cbn [truthyEntry]. rewrite bind_ret. by apply updateReputation_on_record.
  - rewrite (Hplain eq_refl). rewrite bind_run. rewrite bind_nowMs.
    unfold modify at 1. cbn [fst snd].
    rewrite (updateReputation_on_record key change _ (Rep 100 (clock (tick w))));
      [|apply lookup_insert_eq].
    unfold setReputation, advance. cbn. by rewrite insert_insert_eq.
Qed.

(** What one call does when the key reaches something that is not a record:
    no record is created and the tables stay as they are. *)
Lemma updateReputation_no_record key change w :
  reputation w !! key = None ->
  truthyEntry (@inheritedEntry repRecord w key) = true ->
  exists inh,
    updateReputation key change w =
      (JS.Undefined,
       MkWorld (penalties w) (reputation w) (limiterStore w) inh (S (tick w))).
Proof.
  intros Hr Ht. unfold updateReputation. rewrite bind_gets.
  unfold reputationEntry at 1. rewrite Hr, Ht, bind_ret.
  unfold readReputation at 1. rewrite bind_gets.
  destruct (writeReputation_no_record w key Fscore
              (JS.add (readEntry repGet w (reputationEntry w key) Fscore) (JS.Num change)) Hr)
    as [inh1 E1].
  rewrite bind_run, E1. cbn [fst snd]. rewrite bind_nowMs.
  cbn [advance tick penalties reputation limiterStore inherited].
  set (w1 := MkWorld _ _ _ inh1 _).
  destruct (writeReputation_no_record (advance w1) key FlastUpdated
              (JS.Num (clock (tick w))) Hr) as [inh2 E2].
  rewrite bind_run, E2. cbn [fst snd].
  unfold readReputation at 1. rewrite bind_gets.
  cbn [tick penalties reputation limiterStore inherited w1].
  set (w2 := MkWorld _ _ _ inh2 _).
  destruct (writeReputation_no_record w2 key Fscore
              (JS.max 0 (JS.min 200 (readEntry repGet w2 (reputationEntry w2 key) Fscore))) Hr)
    as [inh3 E3].
  rewrite bind_run, E3. cbn [fst snd ret]. by exists inh3.
Qed.

Lemma clampScore_range s : 0 <= clampScore s <= 200.
Proof. unfold clampScore. lia. Qed.

(** For every key: [updateReputation] leaves [penalties] and the limiter
    stores alone, stores at most one record, under its key and within
    bounds, and reads the clock once or twice. *)
Lemma updateReputation_shape key change w :
  let w' := snd (updateReputation key change w) in
  fst (updateReputation key change w) = JS.Undefined /\
  penalties w' = penalties w /\
  limiterStore w' = limiterStore w /\
  (reputation w' = reputation w \/
   exists r, reputation w' = <[key := r]> (reputation w) /\ 0 <= score r <= 200) /\
  (tick w < tick w' <= tick w + 2)%nat.
Proof.
  intros w'. subst w'.
  destruct (reputation w !! key) as [r|] eqn:Hr.
  - rewrite updateReputation_run by (intros H; congruence). rewrite Hr. cbn.
    repeat split; try lia. right. eexists. split; [done|]. apply clampScore_range.
  - destruct (truthyEntry (@inheritedEntry repRecord w key)) eqn:Ht.
    + destruct (updateReputation_no_record key change w Hr Ht) as [inh ->]. cbn.
      repeat split; try lia. by left.
    + rewrite updateReputation_run by done. rewrite Hr. cbn.
      repeat split; try lia. right. eexists. split; [done|]. apply clampScore_range.
Qed.

(** What [getReputation] returns for a key that has a record, and for a key
    that reaches nothing truthy. *)
Lemma getReputation_run key w :
  (reputation w !! key = None ->
   truthyEntry (@inheritedEntry repRecord w key) = false) ->
  getReputation key w =
    (JS.Num (match reputation w !! key with Some r => score r | None => 100 end), w).
Proof.
  intros Hplain. unfold getReputation. rewrite bind_gets. unfold reputationEntry at 1.
  destruct (reputation w !! key) as [r|] eqn:Hr.
  - cbn [truthyEntry]. by rewrite (readReputation_own w key r Fscore _ Hr eq_refl).
  - by rewrite (Hplain eq_refl).
Qed.

(** [getReputation] only reads. *)
Lemma getReputation_pure key w : snd (getReputation key w) = w.
Proof.
  unfold getReputation. rewrite bind_gets. by destruct (truthyEntry _).
Qed.

(** After a call on an ordinary key the key has a record, and its score is
    within bounds. *)
Lemma updateReputation_bounded key change w :
  ordinaryKey key = true ->
  exists r, reputation (snd (updateReputation key change w)) !! key = Some r /\
            0 <= score r <= 200.
Proof.
  intros Hk. rewrite updateReputation_run by (intros _; by apply truthy_inherited_ordinary).
  cbn [snd].
  destruct (reputation w !! key) as [r|]; cbn [reputation];
    rewrite lookup_insert_eq; eexists; (split; [reflexivity|]); apply clampScore_range.
Qed.

Lemma adjustAll_snoc key ds d w :
  snd (adjustAll key (ds ++ [d]) w) =
    snd (updateReputation key d (snd (adjustAll key ds w))).
Proof.
  revert w. induction ds as [|d0 ds IH]; intros w.
  - reflexivity.
  - cbn [adjustAll app]. unfold bind. cbn [fst snd]. apply IH.
Qed.

(** X16: for every key that names nothing along the prototype chain of the
    tables, whatever the starting tables and the integer deltas, the score
    on record after each adjustment of a sequence lies in [0, 200] (every
    non-empty prefix of a sequence ends with some adjustment [d]); and the
    first adjustment of such a key without a record is applied to the
    default score 100. *)
Theorem score_stays_within_bounds key (ds : list Z) (d : Z) w :
  ordinaryKey key = true ->
  (exists r, reputation (snd (adjustAll key (ds ++ [d]) w)) !! key = Some r /\
             0 <= score r <= 200) /\
  (reputation w !! key = None ->
   exists r, reputation (snd (adjustAll key [d] w)) !! key = Some r /\
             score r = Z.max 0 (Z.min 200 (100 + d))).
Proof.
  intros Hk. split.
  - rewrite adjustAll_snoc. by apply updateReputation_bounded.
  - intros Hnone. change [d] with ([] ++ [d]). rewrite adjustAll_snoc. cbn [adjustAll ret snd].
    rewrite updateReputation_run by (intros _; by apply truthy_inherited_ordinary).
    rewrite Hnone. cbn [snd reputation].
    rewrite lookup_insert_eq. by eexists.
Qed.

(** C6, as the program has it, for a key that names nothing along the
    prototype chain of the tables: [updateReputation] creates the record
    with the default score 100 if the key has none, adds the delta, clamps
    the result to [0, 200] and stamps [lastUpdated] with its last clock
    reading; it leaves the other keys, [penalties] and the limiter stores
    alone; the call itself evaluates to [undefined], and the resulting
    score is what [getReputation] returns next. *)
Theorem updateReputation_effect key delta w :
  ordinaryKey key = true ->
  let old := match reputation w !! key with Some r => score r | None => 100 end in
  let w' := snd (updateReputation key delta w) in
  fst (updateReputation key delta w) = JS.Undefined /\
  (exists t, reputation w' = <[key := Rep (Z.max 0 (Z.min 200 (old + delta))) t]> (reputation w) /\
             t = clock (pred (tick w'))) /\
  penalties w' = penalties w /\
  limiterStore w' = limiterStore w /\
  getReputation key w' = (JS.Num (Z.max 0 (Z.min 200 (old + delta))), w').
Proof.
  intros Hk old w'. subst old w'.
  rewrite updateReputation_run by (intros _; by apply truthy_inherited_ordinary).
  cbn [fst snd].
  rewrite getReputation_run by (intros _; by apply truthy_inherited_ordinary).
  destruct (reputation w !! key) as [r|]; cbn [reputation penalties limiterStore tick pred];
    rewrite lookup_insert_eq; repeat split; eauto.
Qed.

(** X17: for a key that names nothing along the prototype chain of the
    tables and has no reputation record, [getReputation] returns the
    default 100 and changes nothing: the world is the same afterwards, and
    the snapshot served by the administrative route that follows has no
    reputation entry for the key. *)
Theorem getReputation_absent_is_pure key w req :
  ordinaryKey key = true ->
  reputation w !! key = None ->
  getReputation key w = (JS.Num 100, w) /\
  exists ps rs,
    fst (get_admin_penalties req (snd (getReputation key w))) = RespSnapshot ps rs /\
    rs !! key = None /\ rs = reputation w /\ ps = penalties w.
Proof.
  intros Hk Hnone.
  rewrite getReputation_run by (intros _; by apply truthy_inherited_ordinary).
  rewrite Hnone. split; [done|].
  exists (penalties w), (reputation w). cbn. done.
Qed.

(** ** Violations *)

Lemma bind_readPenalty_own {B} w key e f v (k : JS.value -> M B) :
  penalties w !! key = Some e -> penaltyGet f e = Some v ->
  bind (readPenalty key f) k w = k v w.
Proof. intros He Hf. by rewrite bind_run, (readPenalty_own w key e f v He Hf). Qed.

Lemma bind_writePenalty_own {B} w key e f v (k : unit -> M B) :
  penalties w !! key = Some e ->
  bind (writePenalty key f v) k w = k tt (setPenalties (insert key (penaltySet f v e)) w).
Proof. intros He. by rewrite bind_run, (writePenalty_own w key e f v He). Qed.

(** Whatever the key reaches, the answer is that of the handler, the
    limiter stores and [penalties] are not touched by this last part, and
    at most one reputation record is stored, within bounds. *)
Lemma answer429_shape max req blockMs w :
  let key := getUserKey req in
  let w' := snd (answer429 max req blockMs w) in
  thresholdExceeded (fst (answer429 max req blockMs w)) = true /\
  w' = snd (updateReputation key (-10) w).
Proof.
  intros key w'. subst w'. unfold answer429. fold key.
  rewrite bind_run. unfold readPenalty. rewrite !bind_gets.
  destruct (JS.toISOString _); [|done].
  rewrite bind_run. cbn [ret fst snd thresholdExceeded].
  by rewrite getReputation_pure.
Qed.

(** On a record, the answer reports the record. *)
Lemma answer429_on_record max req blockMs w v until :
  let key := getUserKey req in
  let w2 := snd (updateReputation key (-10) w) in
  penalties w !! key = Some (Penalty v until) ->
  answer429 max req blockMs w =
    (if JS.validTime until
     then Resp429 (limitMessage req max (humanMinutes blockMs)) max (humanMinutes blockMs)
                  (JS.Num v) until (fst (getReputation key w2)) (isTorVpn req)
     else RespThrown,
     w2).
Proof.
  intros key w2 He. unfold answer429. fold key. rewrite bind_run. fold w2.
  assert (penalties w2 !! key = Some (Penalty v until)) as He2.
  { subst w2. destruct (updateReputation_shape key (-10) w) as (_ & -> & _). exact He. }
  rewrite (bind_readPenalty_own w2 key _ Fviolations _ _ He2 eq_refl).
  rewrite (bind_readPenalty_own w2 key _ FblockedUntil _ _ He2 eq_refl).
  cbn [violations blockedUntil JS.toISOString].
  destruct (JS.validTime until); [|done].
  rewrite bind_run. cbn [ret]. by rewrite getReputation_pure.
Qed.

Lemma handler_unfold max req w :
  rateLimitHandlerFactory max req w =
    (let key := getUserKey req in
     let* now := nowMs in
     let* entry := gets (fun w => penaltyEntry w key) in
     when (negb (truthyEntry entry))
          (modify (setPenalties (insert key (Penalty 0 0)))) >>
     let* v := readPenalty key Fviolations in
     writePenalty key Fviolations (JS.add v (JS.Num 1)) >>
     let* v1 := readPenalty key Fviolations in
     writePenalty key FblockedUntil (JS.Num (now + computeBlockMs v1)) >>
     answer429 max req (computeBlockMs v1)) w.
Proof. reflexivity. Qed.

(** What one call of the violation handler does when the key has a record,
    or reaches nothing truthy along the chain so that a record is created. *)
Lemma rateLimitHandlerFactory_run max req w :
  let key := getUserKey req in
  let v := violationsOf w key + 1 in
  let until := clock (tick w) + computeBlockMs (JS.Num v) in
  let w1 := MkWorld (<[key := Penalty v until]> (penalties w))
                    (reputation w) (limiterStore w) (inherited w) (S (tick w)) in
  let w2 := snd (updateReputation key (-10) w1) in
  (penalties w !! key = None -> truthyEntry (@inheritedEntry penalty w key) = false) ->
  rateLimitHandlerFactory max req w =
    (if JS.validTime until
     then Resp429 (limitMessage req max (humanMinutes (computeBlockMs (JS.Num v)))) max
                  (humanMinutes (computeBlockMs (JS.Num v))) (JS.Num v) until
                  (fst (getReputation key w2)) (isTorVpn req)
     else RespThrown,
     w2).
Proof.
  intros key v until w1 w2 Hplain. rewrite handler_unfold. cbv zeta. fold key.
  rewrite bind_nowMs, bind_gets.
  assert (forall w0 e,
            penalties w0 !! key = Some e ->
            (let* v := readPenalty key Fviolations in
             writePenalty key Fviolations (JS.add v (JS.Num 1)) >>
             let* v1 := readPenalty key Fviolations in
             writePenalty key FblockedUntil (JS.Num (clock (tick w) + computeBlockMs v1)) >>
             answer429 max req (computeBlockMs v1)) w0 =
            answer429 max req (computeBlockMs (JS.Num (violations e + 1)))
              (setPenalties
                 (insert key (Penalty (violations e + 1)
                                (clock (tick w) +
                                 computeBlockMs (JS.Num (violations e + 1))))) w0)) as Hrec.
  { intros w0 e He.
    rewrite (bind_readPenalty_own w0 key e Fviolations _ _ He eq_refl).
    rewrite (bind_writePenalty_own w0 key e _ _ _ He).
    erewrite bind_readPenalty_own; [|apply lookup_insert_eq|reflexivity].
    erewrite bind_writePenalty_own; [|apply lookup_insert_eq].
    cbn [penaltySet violations blockedUntil JS.add].
    f_equal. unfold setPenalties. cbn. by rewrite insert_insert_eq. }
  unfold penaltyEntry at 1. cbn [advance penalties].
  destruct (penalties w !! key) as [e|] eqn:He.
  - cbn [truthyEntry negb when]. rewrite bind_ret.
    rewrite (Hrec (advance w) e He).
    assert (violations e + 1 = v) as -> by (subst v; unfold violationsOf; by rewrite He).
    fold until. unfold setPenalties, advance. cbn [penalties reputation limiterStore inherited tick].
    fold w1. by apply answer429_on_record, lookup_insert_eq.
  - change (@inheritedEntry penalty (advance w) key) with (@inheritedEntry penalty w key).
    rewrite (Hplain eq_refl). cbn [negb when]. rewrite bind_modify.
    rewrite (Hrec _ (Penalty 0 0)) by apply lookup_insert_eq.
    cbn [violations].
    assert (0 + 1 = v) as -> by (subst v; unfold violationsOf; by rewrite He).
    fold until. unfold setPenalties, advance. cbn [penalties reputation limiterStore inherited tick].
    rewrite insert_insert_eq. fold w1. by apply answer429_on_record, lookup_insert_eq.
Qed.

(** When the key reaches something that is not a record, the handler
    stores no penalty record. *)
Lemma rateLimitHandlerFactory_no_record max req w :
  let key := getUserKey req in
  penalties w !! key = None ->
  truthyEntry (@inheritedEntry penalty w key) = true ->
  exists inh blockMs,
    rateLimitHandlerFactory max req w =
      answer429 max req blockMs
        (MkWorld (penalties w) (reputation w) (limiterStore w) inh (S (tick w))).
Proof.
  intros key He Ht. rewrite handler_unfold. cbv zeta. fold key.
  rewrite bind_nowMs, bind_gets. unfold penaltyEntry at 1. cbn [advance penalties].
  change (@inheritedEntry penalty (advance w) key) with (@inheritedEntry penalty w key).
  rewrite He, Ht. cbn [negb when]. rewrite bind_ret.
  unfold readPenalty at 1. rewrite bind_gets.
  match goal with |- context [writePenalty key Fviolations ?x] =>
    destruct (writePenalty_no_record (advance w) key Fviolations x He) as [inh1 E1] end.
  rewrite bind_run, E1. cbn [fst snd]. unfold readPenalty at 1. rewrite bind_gets.
  match goal with |- context [writePenalty key FblockedUntil ?x] =>
    match goal with |- context [bind _ _ ?w0] =>
      destruct (writePenalty_no_record w0 key FblockedUntil x He) as [inh2 E2] end end.
  rewrite bind_run, E2. cbn [fst snd]. eauto.
Qed.

(** The handler puts the incremented count and the new expiry on record,
    when the key has a record or gets one. *)
Lemma rateLimitHandlerFactory_penalties max req w :
  let key := getUserKey req in
  let v := violationsOf w key + 1 in
  (penalties w !! key = None -> truthyEntry (@inheritedEntry penalty w key) = false) ->
  penalties (snd (rateLimitHandlerFactory max req w)) =
    <[key := Penalty v (clock (tick w) + computeBlockMs (JS.Num v))]> (penalties w).
Proof.
  intros key v Hplain. rewrite rateLimitHandlerFactory_run by exact Hplain. cbn [snd].
  match goal with |- penalties (snd (updateReputation ?k ?c ?W)) = _ =>
    destruct (updateReputation_shape k c W) as (_ & Hp & _); exact Hp end.
Qed.

(** For every key: the answer is that of the handler; the limiter stores
    are not touched; [penalties] is unchanged or holds the incremented
    count under the key; [reputation] is unchanged or holds one more record
    within bounds under the key. *)
Lemma rateLimitHandlerFactory_shape max req w :
  let key := getUserKey req in
  let v := violationsOf w key + 1 in
  let w' := snd (rateLimitHandlerFactory max req w) in
  thresholdExceeded (fst (rateLimitHandlerFactory max req w)) = true /\
  limiterStore w' = limiterStore w /\
  (penalties w' = penalties w \/
   penalties w' = <[key := Penalty v (clock (tick w) + computeBlockMs (JS.Num v))]>
                    (penalties w)) /\
  (reputation w' = reputation w \/
   exists r, reputation w' = <[key := r]> (reputation w) /\ 0 <= score r <= 200).
Proof.
  intros key v w'. subst w'.
  assert ((penalties w !! key = None ->
           truthyEntry (@inheritedEntry penalty w key) = false) ->
          thresholdExceeded (fst (rateLimitHandlerFactory max req w)) = true /\
          limiterStore (snd (rateLimitHandlerFactory max req w)) = limiterStore w /\
          (penalties (snd (rateLimitHandlerFactory max req w)) = penalties w \/
           penalties (snd (rateLimitHandlerFactory max req w)) =
             <[key := Penalty v (clock (tick w) + computeBlockMs (JS.Num v))]> (penalties w)) /\
          (reputation (snd (rateLimitHandlerFactory max req w)) = reputation w \/
           exists r, reputation (snd (rateLimitHandlerFactory max req w)) =
                       <[key := r]> (reputation w) /\ 0 <= score r <= 200)) as Hown.
  { intros Hplain.
    pose proof (rateLimitHandlerFactory_penalties max req w Hplain) as Hpen.
    cbv zeta in Hpen. fold key v in Hpen.
    rewrite rateLimitHandlerFactory_run in * by exact Hplain. cbn [fst snd] in *.
    match goal with |- context [snd (updateReputation ?k ?c ?W)] =>
      destruct (updateReputation_shape k c W) as (_ & _ & Hl & Hr & _) end.
    split; [by destruct (JS.validTime _)|]. split; [exact Hl|]. split; [by right|exact Hr]. }
  destruct (penalties w !! key) as [e|] eqn:He;
    [|destruct (truthyEntry (@inheritedEntry penalty w key)) eqn:Ht].
  - apply Hown. congruence.
  - destruct (rateLimitHandlerFactory_no_record max req w He Ht) as (inh & blockMs & ->).
    destruct (answer429_shape max req blockMs
                (MkWorld (penalties w) (reputation w) (limiterStore w) inh (S (tick w))))
      as [H1 H2].
    cbv zeta in H2. rewrite H1, H2.
    match goal with |- context [snd (updateReputation ?k ?c ?W)] =>
      destruct (updateReputation_shape k c W) as (_ & Hp & Hl & Hr & _) end.
    split; [done|]. split; [exact Hl|]. split; [left; exact Hp|exact Hr].
  - by apply Hown.
Qed.

(** X18: for a key that names nothing along the prototype chain of the
    tables, the violation that brings the count of the key to [N] blocks
    the key for [computeBlockMs N] from the reading [now] of the handler,
    whatever the clock and whatever expiry was on record before: one minute
    for the first violation, five minutes for the second, sixty minutes for
    the third and every later one; and the 429 answer says so, when the new
    expiry is a time that [toISOString] can print. *)
Theorem escalation_follows_violation_count max req w N :
  ordinaryKey (getUserKey req) = true ->
  violationsOf w (getUserKey req) = N - 1 ->
  let now := clock (tick w) in
  let res := rateLimitHandlerFactory max req w in
  exists d,
    computeBlockMs (JS.Num N) = d /\
    (N = 1 -> d = 60000) /\
    (N = 2 -> d = 300000) /\
    (3 <= N -> d = 3600000) /\
    penalties (snd res) !! getUserKey req = Some (Penalty N (now + d)) /\
    (JS.validTime (now + d) = true ->
     exists r, fst res = Resp429 (limitMessage req max (humanMinutes d)) max (humanMinutes d)
                                 (JS.Num N) (now + d) r (isTorVpn req)).
Proof.
  intros Hk Hv now res. exists (computeBlockMs (JS.Num N)).
  assert (violationsOf w (getUserKey req) + 1 = N) as HN by lia.
  assert (penalties w !! getUserKey req = None ->
          truthyEntry (@inheritedEntry penalty w (getUserKey req)) = false) as Hplain
    by (intros _; by apply truthy_inherited_ordinary).
  split; [done|]. split; [by intros ->|]. split; [by intros ->|]. split.
  - intros H3. unfold computeBlockMs, JS.strictEq.
    destruct (N =? 1) eqn:E1; [apply Z.eqb_eq in E1; lia|].
    destruct (N =? 2) eqn:E2; [apply Z.eqb_eq in E2; lia|]. reflexivity.
  - subst res. split.
    + rewrite rateLimitHandlerFactory_penalties by exact Hplain. rewrite HN.
      apply lookup_insert_eq.
    + intros Hvalid. rewrite rateLimitHandlerFactory_run by exact Hplain. cbn [fst].
      rewrite HN. fold now. rewrite Hvalid. eauto.
Qed.

(** ** The violation count over the routes *)

Lemma countsGrow_same_penalties {A} (m : M A) :
  (forall w, penalties (snd (m w)) = penalties w) -> countsGrow m.
Proof. intros H w k. unfold violationsOf. by rewrite H. Qed.

Lemma countsGrow_bind {A B} (m : M A) (k : A -> M B) :
  countsGrow m -> (forall a, countsGrow (k a)) -> countsGrow (bind m k).
Proof.
  intros Hm Hk w key. rewrite bind_run.
  etrans; [apply Hm|]. apply Hk.
Qed.

Lemma countsGrow_updateReputation key change : countsGrow (updateReputation key change).
Proof.
  apply countsGrow_same_penalties. intros w.
  by destruct (updateReputation_shape key change w) as (_ & -> & _).
Qed.

Lemma countsGrow_handler max req : countsGrow (rateLimitHandlerFactory max req).
Proof.
  intros w k. unfold violationsOf at 2.
  destruct (rateLimitHandlerFactory_shape max req w) as (_ & _ & [-> | ->] & _).
  - reflexivity.
  - destruct (decide (getUserKey req = k)) as [->|Hne].
    + rewrite lookup_insert_eq. cbn. lia.
    + rewrite lookup_insert_ne by done. reflexivity.
Qed.

(** Assigning 0 to an expiry keeps every count, the reputation table, the
    limiter stores and the clock. *)
Lemma clear_block_keeps w key :
  let w' := snd (writePenalty key FblockedUntil (JS.Num 0) w) in
  (forall k, violationsOf w' k = violationsOf w k) /\
  reputation w' = reputation w /\ limiterStore w' = limiterStore w /\ tick w' = tick w /\
  (penalties w' = penalties w \/
   exists e, penalties w !! key = Some e /\
             penalties w' = <[key := Penalty (violations e) 0]> (penalties w)).
Proof.
  intros w'. subst w'. destruct (penalties w !! key) as [e|] eqn:He.
  - rewrite (writePenalty_own w key e _ _ He). cbn [snd penaltySet].
    repeat split; try reflexivity.
    + intros k. unfold violationsOf, setPenalties. cbn [penalties].
      destruct (decide (key = k)) as [->|Hne].
      * by rewrite lookup_insert_eq, He.
      * by rewrite lookup_insert_ne.
    + right. eauto.
  - destruct (writePenalty_no_record w key FblockedUntil (JS.Num 0) He) as [inh ->].
    cbn. repeat split; try reflexivity. by left.
Qed.

(** The world that [checkBlocked] hands on. *)
Lemma passed_world_keeps w key now :
  let w1 := if blockExpired (blockedUntilOf w key) now
            then snd (writePenalty key FblockedUntil (JS.Num 0) (advance w))
            else advance w in
  (forall k, violationsOf w1 k = violationsOf w k) /\
  reputation w1 = reputation w /\ limiterStore w1 = limiterStore w /\
  tick w1 = S (tick w) /\
  (penalties w1 = penalties w \/
   exists e, penalties w !! key = Some e /\
             penalties w1 = <[key := Penalty (violations e) 0]> (penalties w)).
Proof.
  intros w1. subst w1. destruct (blockExpired _ _).
  - destruct (clear_block_keeps (advance w) key) as (H1 & H2 & H3 & H4 & H5).
    repeat split; try done.
  - repeat split; try done. by left.
Qed.

Lemma countsGrow_checkBlocked req next :
  (forall r, countsGrow (next r)) -> countsGrow (checkBlocked req next).
Proof.
  intros Hn w k. rewrite checkBlocked_run. cbv zeta.
  destruct (stillBlocked _ _); [reflexivity|].
  destruct (passed_world_keeps w (getUserKey req) (clock (tick w))) as (Hv & _).
  rewrite <- (Hv k) at 1. apply Hn.
Qed.

Lemma countsGrow_rateLimit store windowMs max kg handler req next :
  (forall r, countsGrow (handler r)) -> (forall r, countsGrow (next r)) ->
  countsGrow (rateLimit store windowMs max kg handler req next).
Proof.
  intros Hh Hn w k. unfold rateLimit.
  rewrite bind_nowMs, bind_gets, bind_modify.
  match goal with |- context [if ?b then _ else _] => destruct b end.
  - etrans; [|apply Hh]. reflexivity.
  - etrans; [|apply Hn]. reflexivity.
Qed.

Lemma countsGrow_rewardHandler reward req : countsGrow (rewardHandler reward req).
Proof.
  destruct reward as [[d text]|]; cbn [rewardHandler].
  - apply countsGrow_bind; [apply countsGrow_updateReputation|]. intros _.
    apply countsGrow_same_penalties. intros w. rewrite bind_run. cbn [ret snd].
    by rewrite getReputation_pure.
  - by apply countsGrow_same_penalties.
Qed.

Lemma countsGrow_protectedRoute store windowMs max reward req :
  countsGrow (protectedRoute store windowMs max reward req).
Proof.
  unfold protectedRoute, detectTorVpn. apply countsGrow_checkBlocked. intros r.
  unfold makeLimiter. apply countsGrow_rateLimit; intros r'.
  - apply countsGrow_handler.
  - apply countsGrow_rewardHandler.
Qed.


(** Every route but the administrative clear keeps or raises every count;
    the clear only touches the key it names. *)
Lemma countsGrow_serve ep req w k :
  (ep = PostAdminClear -> body_user req <> Some k) ->
  violationsOf w k <= violationsOf (snd (serve ep req w)) k.
Proof.
  intros Hclear. destruct ep; cbn [serve].
  - reflexivity.
  - exact (countsGrow_protectedRoute Report (24 * 60 * 60 * 1000) 5
             (Some (5, reportMessage)) req w k).
  - exact (countsGrow_protectedRoute Browse (60 * 60 * 1000) 100 None req w k).
  - exact (countsGrow_protectedRoute Upload (24 * 60 * 60 * 1000) 10
             (Some (2, uploadMessage)) req w k).
  - reflexivity.
  - specialize (Hclear eq_refl).
    unfold post_admin_clear, detectTorVpn, setIsTorVpn. cbn [body_user].
    destruct (body_user req) as [u|]; [|reflexivity].
    destruct (JS.truthy_str u); [|reflexivity].
    rewrite !bind_modify. cbn [ret snd].
    unfold violationsOf, setReputation, setPenalties. cbn [penalties].
    rewrite lookup_delete_ne by congruence. reflexivity.
Qed.

(** C4, as the program has it: once [blockedUntil <= now], [checkBlocked]
    hands the request on, and the record of the key then carries the
    not-blocked value 0 and the same violation count; and every route other
    than the administrative clear of the key keeps or raises the count on
    record for the key. *)
Theorem expired_block_lifted_count_kept req next w e :
  penalties w !! getUserKey req = Some e ->
  blockedUntil e <= clock (tick w) ->
  checkBlocked req next w =
    next req (MkWorld (<[getUserKey req := Penalty (violations e) 0]> (penalties w))
                      (reputation w) (limiterStore w) (inherited w) (S (tick w))) /\
  (forall ep (r : request) (v : World) (k : string),
      (ep = PostAdminClear -> body_user r <> Some k) ->
      violationsOf v k <= violationsOf (snd (serve ep r v)) k).
Proof.
  intros He Hle. split; [|intros; by apply countsGrow_serve].
  rewrite checkBlocked_run. cbv zeta. rewrite (blockedUntilOf_own _ _ _ He).
  assert (stillBlocked (JS.Num (blockedUntil e)) (clock (tick w)) = false) as ->.
  { destruct (stillBlocked _ _) eqn:Hb; [|done].
    apply stillBlocked_true in Hb as (b & Hb & _ & Hlt). simplify_eq. lia. }
  f_equal. destruct (blockExpired _ _) eqn:Hx.
  - by apply clear_own_block.
  - unfold advance. f_equal.
    assert (blockedUntil e = 0) as H0.
    { destruct (decide (blockedUntil e = 0)) as [|Hnz]; [done|].
      assert (blockExpired (JS.Num (blockedUntil e)) (clock (tick w)) = true)
        by (apply blockExpired_true; eauto). congruence. }
    symmetry. apply insert_id. rewrite He. destruct e; cbn in *. by subst.
Qed.

(** ** The suspicion flag *)

Lemma truthy_prop_true o :
  JS.truthy_prop o = true <-> exists v, o = Some v /\ v <> EmptyString.
Proof.
  split.
  - destruct o as [[|a v]|]; try discriminate. intros _. by eexists.
  - intros (v & -> & Hv). by destruct v.
Qed.

(** C9, as the program has it: the flag is set exactly when one of the
    three headers carries a non-empty value (a header sent with an empty
    value reads as falsy and does not count); so it is set when
    [x-forwarded-for] lists more than one comma-separated hop and it is not
    set when none of the three headers is present; and [detectTorVpn] only
    attaches the flag to the request, it hands the world on untouched. *)
Theorem suspicion_needs_nonempty_header req next w :
  let hs := headers req in
  (suspicious hs = true <->
   exists name v,
     name ∈ ["x-forwarded-for"; "via"; "x-tor-exit-node"]%string /\
     hs !! name = Some v /\ v <> EmptyString) /\
  (forall f, hs !! "x-forwarded-for"%string = Some f ->
             (1 < length (JS.split ","%char f))%nat -> suspicious hs = true) /\
  (hs !! "x-forwarded-for"%string = None -> hs !! "via"%string = None ->
   hs !! "x-tor-exit-node"%string = None -> suspicious hs = false) /\
  detectTorVpn req next w = next (setIsTorVpn (suspicious hs) req) w.
Proof.
  intros hs.
  assert (suspicious hs = true <->
          JS.truthy_prop (hs !! "x-forwarded-for"%string) = true \/
          JS.truthy_prop (hs !! "via"%string) = true \/
          JS.truthy_prop (hs !! "x-tor-exit-node"%string) = true) as Hs.
  { unfold suspicious.
    destruct (hs !! "x-forwarded-for"%string) as [f|]; cbn [JS.truthy_prop].
    - destruct (JS.truthy_str f); cbn [andb orb].
      + destruct (1 <? _); split; auto.
      + rewrite orb_true_iff. split; [intros [|]; auto|].
        intros [|[|]]; [discriminate|auto|auto].
    - cbn [orb]. rewrite orb_true_iff. split; [intros [|]; auto|].
      intros [|[|]]; [discriminate|auto|auto]. }
  split; [|split; [|split]].
  - rewrite Hs, !truthy_prop_true. split.
    + intros [(v & H1 & H2)|[(v & H1 & H2)|(v & H1 & H2)]]; eexists _, v;
        (split; [|done]); apply list_elem_of_In; cbn; auto.
    + intros (name & v & Hin & H1 & H2).
      apply list_elem_of_In in Hin. cbn in Hin.
      destruct Hin as [<-|[<-|[<-|[]]]]; eauto.
  - intros f Hf Hlen. apply Hs. left. rewrite Hf. cbn [JS.truthy_prop].
    destruct f; [cbn in Hlen; lia|done].
  - intros H1 H2 H3. apply not_true_is_false. intros E.
    apply Hs in E. rewrite H1, H2, H3 in E. cbn in E.
    destruct E as [|[|]]; discriminate.
  - reflexivity.
Qed.

(** ** The window counter on a protected route *)

Lemma thresholdExceeded_not_403 r : thresholdExceeded r = true -> is403 r = false.
Proof. by destruct r. Qed.

Lemma rewardHandler_run reward req w :
  let res := rewardHandler reward req w in
  thresholdExceeded (fst res) = false /\ is403 (fst res) = false /\
  penalties (snd res) = penalties w /\
  limiterStore (snd res) = limiterStore w /\
  (tick w <= tick (snd res) <= tick w + 2)%nat.
Proof.
  destruct reward as [[d text]|]; cbn [rewardHandler].
  - rewrite !bind_run. cbn [ret fst snd thresholdExceeded is403].
    rewrite getReputation_pure.
    destruct (updateReputation_shape (getUserKey req) d w) as (_ & -> & -> & _ & Ht).
    repeat split; lia.
  - cbn. repeat split; lia.
Qed.


(** A request on a protected route is either refused by [checkBlocked], or
    counted by the limiter, which then chooses between the violation
    handler and the route's handler. *)
Lemma protectedRoute_step store windowMs max reward req w :
  let key := getUserKey (tagged req) in
  let res := protectedRoute store windowMs max reward req w in
  let c' := countHit (limiterStore w !! (store, key)) (clock (S (tick w))) windowMs in
  (is403 (fst res) = true /\ snd res = advance w /\
   stillBlocked (blockedUntilOf w key) (clock (tick w)) = true) \/
  (is403 (fst res) = false /\
   thresholdExceeded (fst res) = (totalHits c' >? max) /\
   limiterStore (snd res) = <[(store, key) := c']> (limiterStore w) /\
   (totalHits c' <= max ->
    (tick w + 2 <= tick (snd res) <= tick w + 4)%nat /\
    (penalties (snd res) = penalties w \/
     exists e, penalties w !! key = Some e /\
               penalties (snd res) = <[key := Penalty (violations e) 0]> (penalties w)))).
Proof.
  intros key res c'. subst res.
  unfold protectedRoute, detectTorVpn. fold (tagged req).
  rewrite checkBlocked_run. cbv zeta. fold key.
  destruct (stillBlocked _ _); [left; by split|right].
  destruct (passed_world_keeps w key (clock (tick w))) as (_ & _ & Hl & Ht & Hp).
  revert Hl Ht Hp.
  set (w1 := if blockExpired _ _ then _ else _). intros Hl Ht Hp.
  unfold makeLimiter, rateLimit. fold key.
  rewrite bind_nowMs, bind_gets, bind_modify.
  cbn [advance limiterStore]. rewrite Ht, Hl. fold c'.
  set (w2 := setLimiterStore _ _).
  assert (limiterStore w2 = <[(store, key) := c']> (limiterStore w)) as Hl2
    by (subst w2; cbn; by rewrite Hl).
  assert (tick w2 = S (S (tick w))) as Ht2 by (subst w2; cbn; by rewrite Ht).
  assert (penalties w2 = penalties w1) as Hp2 by reflexivity.
  destruct (totalHits c' >? max) eqn:Hc.
  - destruct (rateLimitHandlerFactory_shape max (tagged req) w2) as (H1 & H2 & _).
    rewrite H1, H2, Hl2. split; [by apply thresholdExceeded_not_403|].
    split; [done|]. split; [done|]. intros Hle. apply Z.gtb_lt in Hc. lia.
  - destruct (rewardHandler_run reward (tagged req) w2) as (H1 & H2 & H5 & H3 & H4).
    rewrite H1, H2, H3, H5, Hl2, Hp2.
    split; [done|]. split; [done|]. split; [done|]. intros _. split; [lia|exact Hp].
Qed.







(** ** The refused request *)

(** C5: when [checkBlocked] refuses a request on a protected route, the
    answer of the route is that 403: neither the limiter nor the route's
    handler runs (the only clock reading made is that of [checkBlocked]),
    and the limiter stores, [penalties] and [reputation] are exactly what
    they were.  This is so for a key that is blocked by its record, and
    for whatever request a protected route answers with a 403. *)
Theorem deny_leaves_state_untouched ep req w e :
  protected ep = true ->
  let req' := setIsTorVpn (suspicious (headers req)) req in
  penalties w !! getUserKey req' = Some e ->
  blockedUntil e <> 0 ->
  clock (tick w) < blockedUntil e ->
  is403 (fst (serve ep req w)) = true /\
  snd (serve ep req w) = advance w /\
  limiterStore (snd (serve ep req w)) = limiterStore w /\
  penalties (snd (serve ep req w)) = penalties w /\
  reputation (snd (serve ep req w)) = reputation w /\
  tick (snd (serve ep req w)) = S (tick w) /\
  (forall (r : request) (v : World),
      is403 (fst (serve ep r v)) = true -> snd (serve ep r v) = advance v).
Proof.
  intros Hp req' He Hnz Hlt.
  assert (forall store windowMs max reward (r : request) (v : World),
            is403 (fst (protectedRoute store windowMs max reward r v)) = true ->
            snd (protectedRoute store windowMs max reward r v) = advance v) as Hgen.
  { intros store windowMs max reward r v H.
    destruct (protectedRoute_step store windowMs max reward r v) as [(_ & A & _)|(A & _)];
      [exact A|congruence]. }
  destruct ep; try discriminate Hp; cbn [serve].
  - unfold post_report at 1 2 3 4 5 6, detectTorVpn. fold req'.
    rewrite (checkBlocked_deny req' _ w e He Hnz Hlt). repeat split; try done.
    intros r v. exact (Hgen Report (24 * 60 * 60 * 1000) 5 (Some (5, reportMessage)) r v).
  - unfold get_browse at 1 2 3 4 5 6, detectTorVpn. fold req'.
    rewrite (checkBlocked_deny req' _ w e He Hnz Hlt). repeat split; try done.
    intros r v. exact (Hgen Browse (60 * 60 * 1000) 100 None r v).
  - unfold post_upload at 1 2 3 4 5 6, detectTorVpn. fold req'.
    rewrite (checkBlocked_deny req' _ w e He Hnz Hlt). repeat split; try done.
    intros r v. exact (Hgen Upload (24 * 60 * 60 * 1000) 10 (Some (2, uploadMessage)) r v).
Qed.

(** * Further properties of the program *)

(** ** Escalation tiers and reported minutes *)

(** X1: the block duration never shrinks as the count of a key grows from 1
    on, it is always between one and sixty minutes, and every count other
    than 1 and 2 (0, negative numbers, [NaN] and [undefined] included)
    falls in the sixty-minute tier. *)
Theorem computeBlockMs_tiers :
  (forall a b, 1 <= a -> a <= b ->
               computeBlockMs (JS.Num a) <= computeBlockMs (JS.Num b)) /\
  (forall v, 60000 <= computeBlockMs v <= 3600000) /\
  (forall v, v <> JS.Num 1 -> v <> JS.Num 2 -> computeBlockMs v = 3600000).
Proof.
  assert (forall v, computeBlockMs (JS.Num v) =
                    if decide (v = 1) then 60000
                    else if decide (v = 2) then 300000 else 3600000) as Hc.
  { intros v. unfold computeBlockMs, JS.strictEq.
    destruct (Z.eqb_spec v 1), (Z.eqb_spec v 2); repeat case_decide; try lia; reflexivity. }
  split; [|split].
  - intros a b Ha Hab. rewrite !Hc. repeat case_decide; lia.
  - intros [| |v]; [cbn; lia|cbn; lia|]. rewrite Hc. repeat case_decide; lia.
  - intros [| |v] H1 H2; [reflexivity|reflexivity|].
    rewrite Hc. repeat case_decide; try reflexivity; congruence.
Qed.

(** X2: the minutes shown to the user grow with the milliseconds they are
    computed from, are exact on whole minutes, and are never negative for a
    duration that is not. *)
Theorem humanMinutes_monotone_exact :
  (forall a b, a <= b -> humanMinutes a <= humanMinutes b) /\
  (forall k, humanMinutes (60000 * k) = k) /\
  (forall ms, 0 <= ms -> 0 <= humanMinutes ms).
Proof.
  unfold humanMinutes, JS.round_div. split; [|split].
  - intros a b Hab. apply Z.div_le_mono; lia.
  - intros k. replace (2 * (60000 * k) + 60000) with (60000 + k * (2 * 60000)) by lia.
    rewrite Z.div_add by lia. reflexivity.
  - intros ms Hms. apply Z.div_pos; lia.
Qed.

(** ** Language of the messages *)

Lemma lower_is c x :
  (x = "a"%char \/ x = "r"%char) ->
  JS.lower c = x <->
  c = x \/ c = Ascii.ascii_of_nat (Ascii.nat_of_ascii x - 32).
Proof.
  intros [->| ->];
    destruct c as [[] [] [] [] [] [] [] []]; vm_compute;
    split; intros H; try (destruct H as [H|H]); try discriminate H; auto.
Qed.

(** X3: a request is answered in Arabic exactly when its language header
    starts with the letters a and r, in either case; a request with no
    language header, or an empty one, is answered in English. *)
Theorem isArabic_iff req :
  (isArabic req = true <->
   exists a r rest,
     headers req !! "accept-language"%string = Some (String a (String r rest)) /\
     (a = "a"%char \/ a = "A"%char) /\ (r = "r"%char \/ r = "R"%char)) /\
  (headers req !! "accept-language"%string = None -> isArabic req = false) /\
  (headers req !! "accept-language"%string = Some EmptyString -> isArabic req = false).
Proof.
  assert (forall s, JS.startsWith (JS.toLowerCase s) "ar" = true <->
                    exists a r rest, s = String a (String r rest) /\
                      (a = "a"%char \/ a = "A"%char) /\ (r = "r"%char \/ r = "R"%char)) as Hs.
  { intros s. unfold JS.startsWith. destruct s as [|a [|r rest]].
    - cbn. split; [discriminate|]. intros (? & ? & ? & ? & _). discriminate.
    - cbn [JS.toLowerCase String.prefix]. split.
      + destruct (Ascii.ascii_dec "a" (JS.lower a)); discriminate.
      + intros (? & ? & ? & ? & _). discriminate.
    - cbn [JS.toLowerCase].
      pose proof (lower_is a "a" (or_introl eq_refl)) as Ha.
      pose proof (lower_is r "r" (or_intror eq_refl)) as Hr.
      change (Ascii.ascii_of_nat _) with "A"%char in Ha.
      change (Ascii.ascii_of_nat _) with "R"%char in Hr.
      assert (forall t, String.prefix EmptyString t = true) as Hnil by (by intros []).
      change (String.prefix "ar" (String (JS.lower a) (String (JS.lower r) (JS.toLowerCase rest))))
        with (if Ascii.ascii_dec "a" (JS.lower a)
              then if Ascii.ascii_dec "r" (JS.lower r)
                   then String.prefix EmptyString (JS.toLowerCase rest) else false
              else false).
      rewrite Hnil. split.
      + destruct (Ascii.ascii_dec "a" (JS.lower a)) as [E1|]; [|discriminate].
        destruct (Ascii.ascii_dec "r" (JS.lower r)) as [E2|]; [|discriminate].
        intros _. exists a, r, rest. split; [done|].
        split; [apply Ha|apply Hr]; done.
      + intros (a' & r' & rest' & Heq & Ha' & Hr'). simplify_eq.
        apply Ha in Ha'. apply Hr in Hr'. rewrite Ha', Hr'.
        destruct (Ascii.ascii_dec "a" "a"); [|done].
        by destruct (Ascii.ascii_dec "r" "r"). }
  unfold isArabic. split; [|split].
  - destruct (headers req !! "accept-language"%string) as [l|].
    + destruct l as [|a l'].
      * cbn. split; [discriminate|]. intros (? & ? & ? & ? & _). discriminate.
      * cbn [JS.truthy_str]. rewrite Hs. split.
        -- intros (a0 & r & rest & H & ?). exists a0, r, rest. by rewrite H.
        -- intros (a0 & r & rest & H & ?). exists a0, r, rest. by simplify_eq.
    + cbn. split; [discriminate|]. intros (? & ? & ? & ? & _). discriminate.
  - intros ->. reflexivity.
  - intros ->. reflexivity.
Qed.

(** ** The violation handler and the block it sets *)

Lemma ordinary_plain {R} w key (o : option R) :
  ordinaryKey key = true ->
  o = None -> truthyEntry (@inheritedEntry R w key) = false.
Proof. intros Hk _. by apply truthy_inherited_ordinary. Qed.

Lemma getReputation_ordinary key w :
  ordinaryKey key = true -> getReputation key w = (JS.Num (scoreOf w key), w).
Proof. intros Hk. by rewrite getReputation_run by (by apply ordinary_plain). Qed.

Lemma scoreOf_after_update key delta w :
  ordinaryKey key = true ->
  scoreOf (snd (updateReputation key delta w)) key = clampScore (scoreOf w key + delta).
Proof.
  intros Hk. rewrite updateReputation_run by (by apply ordinary_plain).
  unfold scoreOf. cbn [snd].
  destruct (reputation w !! key); cbn [reputation]; by rewrite lookup_insert_eq.
Qed.

(** X4: for a key that names nothing along the prototype chain of the
    tables, the 429 answer reports what the handler has just stored for the
    key: the violation count, the expiry and the score on record, with the
    text in the language of the request; the minutes it announces are 1, 5
    or 60 and are exactly the length of the block; and the score is the one
    [getReputation] returned before (100 without a record) lowered by 10,
    not below 0.  When the expiry is no time that [toISOString] can print,
    the same is stored and the answer is the error raised instead. *)
Theorem handler_reports_stored_state max req w :
  let key := getUserKey req in
  let res := rateLimitHandlerFactory max req w in
  ordinaryKey key = true ->
  exists e r m old,
    penalties (snd res) !! key = Some e /\
    reputation (snd res) !! key = Some r /\
    fst res =
      (if JS.validTime (blockedUntil e)
       then Resp429 (limitMessage req max m) max m (JS.Num (violations e)) (blockedUntil e)
                    (JS.Num (score r)) (isTorVpn req)
       else RespThrown) /\
    (m = 1 \/ m = 5 \/ m = 60) /\
    blockedUntil e = clock (tick w) + 60000 * m /\
    violations e = violationsOf w key + 1 /\
    fst (getReputation key w) = JS.Num old /\
    score r = Z.max 0 (Z.min 200 (old - 10)).
Proof.
  intros key res Hk. subst res.
  rewrite rateLimitHandlerFactory_run by (by apply ordinary_plain).
  fold key. cbn [fst snd].
  set (v := violationsOf w key + 1).
  assert (exists m, (m = 1 \/ m = 5 \/ m = 60) /\ computeBlockMs (JS.Num v) = 60000 * m /\
                    humanMinutes (computeBlockMs (JS.Num v)) = m) as (m & Hm & Hc & Hh).
  { unfold computeBlockMs, JS.strictEq. destruct (v =? 1); [exists 1; auto|].
    destruct (v =? 2); [exists 5; auto|]. exists 60; auto. }
  rewrite Hh, Hc.
  set (w1 := MkWorld _ _ _ _ _).
  rewrite !getReputation_ordinary by done. cbn [fst].
  pose proof (scoreOf_after_update key (-10) w1 Hk) as Hs.
  destruct (updateReputation_bounded key (-10) w1 Hk) as (r & Hr & _).
  assert (penalties (snd (updateReputation key (-10) w1)) !! key =
          Some (Penalty v (clock (tick w) + 60000 * m))) as Hp.
  { destruct (updateReputation_shape key (-10) w1) as (_ & -> & _).
    subst w1. cbn [penalties]. apply lookup_insert_eq. }
  exists (Penalty v (clock (tick w) + 60000 * m)), r, m, (scoreOf w key).
  cbn [violations blockedUntil].
  assert (scoreOf (snd (updateReputation key (-10) w1)) key = score r) as Hsr
    by (unfold scoreOf; by rewrite Hr).
  rewrite Hsr in *.
  split; [done|]. split; [done|]. split; [done|]. split; [done|].
  split; [done|]. split; [done|]. split; [done|].
  rewrite Hs. unfold clampScore. f_equal.
Qed.

(** X5: the handler touches the records of the offending key only: the
    penalty and reputation records of every other key and the limiter
    stores are as before. *)
Theorem handler_leaves_other_keys max req w k :
  k <> getUserKey req ->
  let w' := snd (rateLimitHandlerFactory max req w) in
  penalties w' !! k = penalties w !! k /\
  reputation w' !! k = reputation w !! k /\
  limiterStore w' = limiterStore w.
Proof.
  intros Hk w'. subst w'.
  destruct (rateLimitHandlerFactory_shape max req w) as (_ & -> & [-> | ->] & [-> | (r & -> & _)]);
    rewrite ?lookup_insert_ne by done; done.
Qed.

(** X6: after a violation of a key that names nothing along the prototype
    chain of the tables, the key is refused on every protected route for as
    long as the clock reads less than the expiry the handler has set, with
    the remaining time in the language of the refused request, and such a
    refusal changes nothing; the expiry 0 would read as "not blocked",
    hence the first hypothesis. *)
Theorem violation_blocks_every_protected_route max req w ep req2 :
  let key := getUserKey req in
  let until := clock (tick w) + computeBlockMs (JS.Num (violationsOf w key + 1)) in
  let w' := snd (rateLimitHandlerFactory max req w) in
  ordinaryKey key = true ->
  until <> 0 ->
  protected ep = true ->
  getUserKey (tagged req2) = key ->
  clock (tick w') < until ->
  serve ep req2 w' =
    (Resp403 (blockedMessage (tagged req2) (humanMinutes (until - clock (tick w'))))
             (humanMinutes (until - clock (tick w')))
             (JS.round_div (until - clock (tick w')) 1000),
     advance w').
Proof.
  intros key until w' Hord Hnz Hp Hk Hlt.
  assert (penalties w' !! getUserKey (tagged req2) =
          Some (Penalty (violationsOf w key + 1) until)) as He.
  { rewrite Hk. subst w'. rewrite rateLimitHandlerFactory_penalties by (by apply ordinary_plain).
    apply lookup_insert_eq. }
  destruct ep; try discriminate Hp; cbn [serve];
    unfold post_report, get_browse, post_upload, detectTorVpn;
    fold (tagged req2);
    rewrite (checkBlocked_deny (tagged req2) _ w' _ He Hnz Hlt); reflexivity.
Qed.

Lemma not_blocked_not_expired bu now :
  stillBlocked bu now = false -> blockExpired bu now = false ->
  forall now', stillBlocked bu now' = false /\ blockExpired bu now' = false.
Proof.
  unfold stillBlocked, blockExpired. intros H1 H2 now'.
  destruct bu as [| |b]; cbn in *; try done.
  destruct (JS.truthy_num b) eqn:Hb; cbn [andb] in *; [|done].
  apply Z.leb_gt in H2. rewrite Z.gtb_ltb in H1. apply Z.ltb_ge in H1. lia.
Qed.

(** Once an expired block has been cleared, the key reads as not
    blocked. *)
Lemma blockedUntilOf_cleared w key :
  (penalties w !! key = None -> fieldOfName key = None) ->
  truthyEntry (penaltyEntry w key) = true ->
  blockedUntilOf (snd (writePenalty key FblockedUntil (JS.Num 0) (advance w))) key = JS.Num 0.
Proof.
  intros Hf Ht. destruct (penalties w !! key) as [e|] eqn:He.
  - rewrite (clear_own_block w key e He).
    rewrite (blockedUntilOf_own _ _ (Penalty (violations e) 0)); [done|].
    cbn [penalties]. apply lookup_insert_eq.
  - specialize (Hf eq_refl). revert Ht.
    unfold blockedUntilOf, writePenalty, modify, penaltyEntry. cbn [snd advance penalties].
    rewrite He. unfold inheritedEntry. rewrite Hf.
    destruct (bool_decide (key ∈ protoNames)) eqn:Hin; [|done]. intros _.
    cbn [setInherited advance penalties]. rewrite He.
    cbn [truthyEntry readEntry]. unfold objField.
    unfold ownFields at 1. cbn [inherited setInherited advance]. by rewrite lookup_insert_eq.
Qed.

(** X7: a request that [checkBlocked] lets through leaves its key unblocked
    at every instant: a second check passes whatever the clock reads then,
    an earlier time included, and changes no table.  This is so for every
    key that has a penalty record, and for every key without one other than
    the four field names [violations], [blockedUntil], [score] and
    [lastUpdated]. *)
Theorem admitted_key_stays_clear req next w :
  (penalties w !! getUserKey req = None -> fieldOfName (getUserKey req) = None) ->
  stillBlocked (blockedUntilOf w (getUserKey req)) (clock (tick w)) = false ->
  exists w1,
    checkBlocked req next w = next req w1 /\
    (forall now, stillBlocked (blockedUntilOf w1 (getUserKey req)) now = false) /\
    (forall next', checkBlocked req next' w1 = next' req (advance w1)).
Proof.
  intros Hf Hb. eexists. split; [rewrite checkBlocked_run; cbv zeta; by rewrite Hb|].
  set (w1 := if blockExpired _ _ then _ else _).
  assert (forall now, stillBlocked (blockedUntilOf w1 (getUserKey req)) now = false /\
                      blockExpired (blockedUntilOf w1 (getUserKey req)) now = false) as Hclear.
  { subst w1.
    destruct (blockExpired (blockedUntilOf w (getUserKey req)) (clock (tick w))) eqn:Hx.
    - intros now. rewrite blockedUntilOf_cleared; [done|done|].
      unfold blockedUntilOf in Hx.
      destruct (truthyEntry (penaltyEntry w (getUserKey req))); [done|discriminate Hx].
    - change (blockedUntilOf (advance w) (getUserKey req))
        with (blockedUntilOf w (getUserKey req)).
      by apply (not_blocked_not_expired _ (clock (tick w))). }
  split; [intros now; apply Hclear|].
  intros next'. rewrite checkBlocked_run. cbv zeta.
  by rewrite (proj1 (Hclear _)), (proj2 (Hclear _)).
Qed.

(** ** Reputation arithmetic *)

(** X8: for a key that names nothing along the prototype chain of the
    tables, as long as no running total leaves [0, 200], a sequence of
    adjustments simply adds up: the score that [getReputation] returns
    afterwards is the score it returned before (100 without a record) plus
    the sum of the deltas. *)
Theorem adjustments_add_up key (ds : list Z) : forall w,
  ordinaryKey key = true ->
  (forall n, (n <= length ds)%nat ->
             0 <= scoreOf w key + sumDeltas (take n ds) <= 200) ->
  fst (getReputation key w) = JS.Num (scoreOf w key) /\
  fst (getReputation key (snd (adjustAll key ds w))) =
    JS.Num (scoreOf w key + sumDeltas ds).
Proof.
  intros w Hk Hrange. rewrite !getReputation_ordinary by done. cbn [fst].
  split; [done|]. f_equal. revert w Hrange.
  induction ds as [|d ds IH]; intros w Hrange.
  - unfold sumDeltas. cbn [adjustAll ret snd foldr]. lia.
  - cbn [adjustAll]. rewrite bind_run.
    assert (scoreOf (snd (updateReputation key d w)) key = scoreOf w key + d) as Hstep.
    { rewrite scoreOf_after_update by done. unfold clampScore.
      specialize (Hrange 1%nat ltac:(cbn [length]; lia)).
      change (take 1 (d :: ds)) with [d] in Hrange.
      unfold sumDeltas in Hrange. cbn [foldr] in Hrange. lia. }
    rewrite IH.
    + rewrite Hstep. unfold sumDeltas. cbn [foldr]. lia.
    + intros n Hn. rewrite Hstep.
      specialize (Hrange (S n) ltac:(cbn [length]; lia)).
      change (take (S n) (d :: ds)) with (d :: take n ds) in Hrange.
      unfold sumDeltas in *. cbn [foldr] in Hrange. lia.
Qed.

(** X9: for a key that names nothing along the prototype chain of the
    tables, an adjustment moves a score that is within [0, 200] in the
    direction of the delta and by no more than its size, and a larger delta
    never gives a smaller score; the scores are those that [getReputation]
    returns before and after. *)
Theorem adjustment_is_bounded_and_monotone key w delta delta' :
  ordinaryKey key = true ->
  exists old new new',
    fst (getReputation key w) = JS.Num old /\
    fst (getReputation key (snd (updateReputation key delta w))) = JS.Num new /\
    fst (getReputation key (snd (updateReputation key delta' w))) = JS.Num new' /\
    (delta <= delta' -> new <= new') /\
    (0 <= old <= 200 ->
     Z.abs (new - old) <= Z.abs delta /\
     (0 <= delta -> old <= new) /\ (delta <= 0 -> new <= old)).
Proof.
  intros Hk. eexists _, _, _. rewrite !getReputation_ordinary by done. cbn [fst].
  split; [reflexivity|]. split; [reflexivity|]. split; [reflexivity|].
  rewrite !scoreOf_after_update by done. unfold clampScore. split; [lia|]. intros Hold. lia.
Qed.

(** ** Administrative routes *)

Lemma blockedUntilOf_ordinary w key :
  penalties w !! key = None -> ordinaryKey key = true -> blockedUntilOf w key = JS.Undefined.
Proof.
  intros He Hk. unfold blockedUntilOf, penaltyEntry. rewrite He.
  by rewrite inheritedEntry_ordinary.
Qed.

(** X10: clearing a user removes both of the user's records and nothing
    else (the limiter stores keep their counts, no clock reading is made);
    afterwards a user whose name is nothing along the prototype chain of
    the tables reads as new: reputation 100, admitted by [checkBlocked]
    whatever the clock reads, and the next violation is counted as the
    first, with a one-minute block. *)
Theorem admin_clear_makes_key_fresh req u w :
  body_user req = Some u ->
  u <> EmptyString ->
  ordinaryKey u = true ->
  let w' := snd (post_admin_clear req w) in
  fst (post_admin_clear req w) = RespCleared u /\
  w' = MkWorld (delete u (penalties w)) (delete u (reputation w)) (limiterStore w)
               (inherited w) (tick w) /\
  fst (getReputation u w') = JS.Num 100 /\
  (forall r next, getUserKey r = u -> checkBlocked r next w' = next r (advance w')) /\
  (forall max r, getUserKey r = u ->
     penalties (snd (rateLimitHandlerFactory max r w')) !! u =
       Some (Penalty 1 (clock (tick w') + 60000))).
Proof.
  intros Hu Hne Hk w'.
  assert (post_admin_clear req w =
          (RespCleared u,
           MkWorld (delete u (penalties w)) (delete u (reputation w))
                   (limiterStore w) (inherited w) (tick w))) as Hrun.
  { unfold post_admin_clear, detectTorVpn, setIsTorVpn. cbn [body_user]. rewrite Hu.
    destruct u; [done|]. reflexivity. }
  subst w'. rewrite Hrun. cbn [fst snd].
  split; [done|]. split; [done|]. split; [|split].
  - rewrite getReputation_ordinary by done. unfold scoreOf. cbn [fst reputation].
    by rewrite lookup_delete_eq.
  - intros r next Hr. rewrite checkBlocked_run. cbv zeta. rewrite Hr.
    rewrite blockedUntilOf_ordinary; [done| |done].
    cbn [penalties]. apply lookup_delete_eq.
  - intros max r Hr. rewrite rateLimitHandlerFactory_penalties; rewrite Hr.
    + unfold violationsOf. cbn [penalties tick]. rewrite lookup_delete_eq.
      apply lookup_insert_eq.
    + by apply ordinary_plain.
Qed.

(** X11: the clear route answers 400 and changes nothing when the body
    names no user or an empty one; and clearing a user a second time, or a
    user without records, changes nothing either. *)
Theorem admin_clear_edge_cases req w :
  (body_user req = None \/ body_user req = Some EmptyString ->
   post_admin_clear req w = (Resp400, w)) /\
  snd (post_admin_clear req (snd (post_admin_clear req w))) = snd (post_admin_clear req w) /\
  (forall u, body_user req = Some u ->
             penalties w !! u = None -> reputation w !! u = None ->
             snd (post_admin_clear req w) = w).
Proof.
  unfold post_admin_clear, detectTorVpn, setIsTorVpn. cbn [body_user].
  split; [|split].
  - intros [-> | ->]; reflexivity.
  - destruct (body_user req) as [[|c u]|]; try reflexivity.
    cbn [JS.truthy_str]. rewrite !bind_modify. cbn [ret snd].
    unfold setReputation, setPenalties.
    cbn [penalties reputation limiterStore inherited tick].
    by rewrite !delete_delete_eq.
  - intros u -> Hp Hr. destruct u as [|c u]; [reflexivity|].
    cbn [JS.truthy_str]. rewrite !bind_modify. cbn [ret snd].
    unfold setReputation, setPenalties.
    cbn [penalties reputation limiterStore inherited tick].
    rewrite !delete_id by done. by destruct w.
Qed.

(** X12: the health, snapshot and clear routes are not behind
    [checkBlocked] or a limiter: whatever the tables hold, a blocked caller
    included, they never answer 403 or 429 and never read the clock; the
    health and snapshot routes change nothing, and the snapshot is the pair
    of tables as they are. *)
Theorem unprotected_routes_never_refuse ep req w :
  protected ep = false ->
  is403 (fst (serve ep req w)) = false /\
  thresholdExceeded (fst (serve ep req w)) = false /\
  tick (snd (serve ep req w)) = tick w /\
  limiterStore (snd (serve ep req w)) = limiterStore w /\
  (ep = GetHealth -> serve ep req w = (RespHealth, w)) /\
  (ep = GetAdminPenalties ->
   serve ep req w = (RespSnapshot (penalties w) (reputation w), w)).
Proof.
  intros Hp. destruct ep; try discriminate Hp; cbn [serve].
  - repeat split; done.
  - repeat split; done.
  - unfold post_admin_clear, detectTorVpn, setIsTorVpn. cbn [body_user].
    destruct (body_user req) as [[|c u]|]; repeat split; done.
Qed.

(** ** What a protected route can do to a key *)

(** X13: what one request on a protected route can do, for a key that
    names nothing along the prototype chain of the tables.  It is refused
    (403) and nothing changes; or it crosses the limit: the count of its
    key grows by one and the score falls by 10, not below 0, with no
    reward, and the answer is the 429 that says so, or the error raised
    when the new expiry is no time that [toISOString] can print; or it is
    served (200): the count is kept and the score grows by the reward of
    the route, not above 200, or is kept on a route without reward.  The
    429 and 200 answers carry the flag that [detectTorVpn] computed from
    the headers. *)
Theorem protected_request_outcomes store windowMs max reward req w :
  let key := getUserKey (tagged req) in
  let old := scoreOf w key in
  let res := protectedRoute store windowMs max reward req w in
  ordinaryKey key = true ->
  fst (getReputation key w) = JS.Num old /\
  match fst res with
  | Resp403 _ _ _ => snd res = advance w
  | Resp429 text lim m n _ rp flag =>
      lim = max /\ text = limitMessage (tagged req) max m /\
      n = JS.Num (violationsOf w key + 1) /\
      violationsOf (snd res) key = violationsOf w key + 1 /\
      rp = JS.Num (Z.max 0 (Z.min 200 (old - 10))) /\
      fst (getReputation key (snd res)) = rp /\
      flag = Some (suspicious (headers req))
  | RespThrown =>
      violationsOf (snd res) key = violationsOf w key + 1 /\
      fst (getReputation key (snd res)) = JS.Num (Z.max 0 (Z.min 200 (old - 10)))
  | Resp200 text rp flag =>
      violationsOf (snd res) key = violationsOf w key /\
      text = (fun dt => snd dt (tagged req)) <$> reward /\
      rp = (fun dt => JS.Num (Z.max 0 (Z.min 200 (old + fst dt)))) <$> reward /\
      fst (getReputation key (snd res)) =
        JS.Num (match reward with
                | Some dt => Z.max 0 (Z.min 200 (old + fst dt))
                | None => old
                end) /\
      flag = Some (suspicious (headers req))
  | _ => False
  end.
Proof.
  intros key old res Hk. subst res old.
  split; [by rewrite getReputation_ordinary|].
  unfold protectedRoute, detectTorVpn. fold (tagged req).
  rewrite checkBlocked_run. cbv zeta. fold key.
  destruct (stillBlocked _ _); [reflexivity|].
  destruct (passed_world_keeps w key (clock (tick w))) as (Hv & Hr & _).
  revert Hv Hr. set (w1 := if blockExpired _ _ then _ else _). intros Hv Hr.
  unfold makeLimiter, rateLimit. rewrite bind_nowMs, bind_gets, bind_modify.
  set (w2 := setLimiterStore _ _).
  assert (forall k, violationsOf w2 k = violationsOf w k) as Hv2 by (intros k; apply Hv).
  assert (scoreOf w2 key = scoreOf w key) as Hs2
    by (unfold scoreOf; subst w2; cbn [setLimiterStore advance reputation]; by rewrite Hr).
  match goal with |- context [if ?b then _ else _] => destruct b end.
  - rewrite rateLimitHandlerFactory_run by (by apply ordinary_plain). fold key.
    cbn [fst snd]. rewrite !getReputation_ordinary by done. cbn [fst].
    set (w3 := MkWorld _ _ _ _ _).
    assert (violationsOf (snd (updateReputation key (-10) w3)) key = violationsOf w key + 1)
      as Hv3.
    { unfold violationsOf at 1.
      destruct (updateReputation_shape key (-10) w3) as (_ & -> & _).
      subst w3. cbn [penalties]. by rewrite lookup_insert_eq, Hv2. }
    assert (scoreOf (snd (updateReputation key (-10) w3)) key =
            Z.max 0 (Z.min 200 (scoreOf w key - 10))) as Hs3.
    { rewrite scoreOf_after_update by done. unfold clampScore.
      replace (scoreOf w3 key) with (scoreOf w key) by (rewrite <- Hs2; reflexivity).
      reflexivity. }
    rewrite Hs3, Hv2. destruct (JS.validTime _); cbn [fst]; repeat split; done.
  - destruct reward as [[d text]|]; cbn [rewardHandler fmap option_fmap option_map].
    + fold key. rewrite !bind_run. cbn [ret fst snd].
      rewrite !getReputation_ordinary by done. cbn [fst snd].
      rewrite scoreOf_after_update by done. rewrite Hs2. unfold clampScore.
      split; [|repeat split].
      unfold violationsOf at 1.
      destruct (updateReputation_shape key d w2) as (_ & -> & _). apply Hv2.
    + cbn [ret fst snd]. rewrite getReputation_ordinary by done. cbn [fst].
      rewrite Hs2. split; [apply Hv2|]. repeat split.
Qed.

Lemma sameTreatment_bind {A} L (m : M A) (k1 k2 : A -> M response) w :
  (forall a w', sameTreatment L (k1 a w') (k2 a w')) ->
  sameTreatment L (bind m k1 w) (bind m k2 w).
Proof. intros H. rewrite !bind_run. apply H. Qed.

Lemma isArabic_tagged r : isArabic (tagged r) = isArabic r.
Proof. reflexivity. Qed.

Lemma answer429_same_key max r1 r2 blockMs w :
  getUserKey r1 = getUserKey r2 ->
  sameTreatment (isArabic r1 = isArabic r2)
    (answer429 max r1 blockMs w) (answer429 max r2 blockMs w).
Proof.
  intros Hk. unfold answer429. rewrite Hk.
  apply sameTreatment_bind. intros _ w1.
  apply sameTreatment_bind. intros v w2.
  apply sameTreatment_bind. intros bu w3.
  destruct (JS.toISOString bu); [|by split].
  apply sameTreatment_bind. intros r w4.
  split; [done|]. intros HL. cbn [ret fst withoutFlag].
  unfold limitMessage. by rewrite HL.
Qed.

Lemma handler_same_key max r1 r2 w :
  getUserKey r1 = getUserKey r2 ->
  sameTreatment (isArabic r1 = isArabic r2)
    (rateLimitHandlerFactory max r1 w) (rateLimitHandlerFactory max r2 w).
Proof.
  intros Hk. rewrite !handler_unfold. cbv zeta. rewrite Hk.
  do 7 (apply sameTreatment_bind; intros ? ?).
  by apply answer429_same_key.
Qed.

(** X14: requests that resolve to the same key are treated alike on a
    protected route, whatever else they carry (proxy headers, language,
    body): they leave the same world, and when they ask for the same
    language they get the same answer, the [torVpnSuspected] field apart.
    The suspicion flag never changes a decision, and the language only
    changes the text. *)
Theorem same_key_same_treatment ep r1 r2 w :
  protected ep = true ->
  getUserKey (tagged r1) = getUserKey (tagged r2) ->
  snd (serve ep r1 w) = snd (serve ep r2 w) /\
  (isArabic r1 = isArabic r2 ->
   withoutFlag (fst (serve ep r1 w)) = withoutFlag (fst (serve ep r2 w))).
Proof.
  intros Hp Hk.
  assert (forall store windowMs max reward,
            (forall d text, reward = Some (d, text) ->
                            isArabic r1 = isArabic r2 -> text (tagged r1) = text (tagged r2)) ->
            sameTreatment (isArabic r1 = isArabic r2)
              (protectedRoute store windowMs max reward r1 w)
              (protectedRoute store windowMs max reward r2 w)) as Hgen.
  { intros store windowMs max reward Htext.
    unfold protectedRoute, detectTorVpn. fold (tagged r1) (tagged r2).
    rewrite !checkBlocked_run. cbv zeta. rewrite Hk.
    destruct (stillBlocked _ _).
    - split; [done|]. intros HL. cbn [fst withoutFlag].
      unfold blockedMessage. by rewrite !isArabic_tagged, HL.
    - unfold makeLimiter, rateLimit. rewrite Hk.
      apply sameTreatment_bind. intros now w1.
      apply sameTreatment_bind. intros c w2.
      apply sameTreatment_bind. intros _ w3.
      destruct (_ >? _).
      + apply (handler_same_key max (tagged r1) (tagged r2) w3 Hk).
      + destruct reward as [[d text]|]; cbn [rewardHandler]; [|by split].
        rewrite Hk. apply sameTreatment_bind. intros _ w4.
        apply sameTreatment_bind. intros r w5.
        split; [done|]. intros HL. cbn [ret fst withoutFlag].
        by rewrite (Htext d text eq_refl HL). }
  destruct ep; try discriminate Hp; cbn [serve].
  - apply (Hgen Report (24 * 60 * 60 * 1000) 5 (Some (5, reportMessage))).
    intros d text [= _ <-] HL. unfold reportMessage. by rewrite !isArabic_tagged, HL.
  - apply (Hgen Browse (60 * 60 * 1000) 100 None). intros d text [=].
  - apply (Hgen Upload (24 * 60 * 60 * 1000) 10 (Some (2, uploadMessage))).
    intros d text [= _ <-] HL. unfold uploadMessage. by rewrite !isArabic_tagged, HL.
Qed.

(** ** Stored records stay well formed *)

Lemma keepsWellFormed_bind {A B} (m : M A) (k : A -> M B) :
  keepsWellFormed m -> (forall a, keepsWellFormed (k a)) -> keepsWellFormed (bind m k).
Proof. intros Hm Hk w Hw. rewrite bind_run. apply Hk, Hm, Hw. Qed.

Lemma keepsWellFormed_updateReputation key change :
  keepsWellFormed (updateReputation key change).
Proof.
  intros w [Hp Hr].
  destruct (updateReputation_shape key change w) as (_ & Hp' & _ & Hr' & _).
  split; [by rewrite Hp'|].
  destruct Hr' as [-> | (r & -> & Hrange)]; [done|].
  by apply map_Forall_insert_2.
Qed.

Lemma wellFormed_violationsOf w k : wellFormed w -> 0 <= violationsOf w k.
Proof.
  intros [Hp _]. unfold violationsOf.
  destruct (penalties w !! k) as [e|] eqn:He; [|done].
  pose proof (map_Forall_lookup_1 _ _ _ _ Hp He) as H. cbn in H. lia.
Qed.

Lemma keepsWellFormed_handler max req : keepsWellFormed (rateLimitHandlerFactory max req).
Proof.
  intros w Hw.
  pose proof (wellFormed_violationsOf w (getUserKey req) Hw) as Hv.
  destruct Hw as [Hp Hr].
  destruct (rateLimitHandlerFactory_shape max req w) as (_ & _ & Hp' & Hr').
  split.
  - destruct Hp' as [-> | ->]; [done|]. apply map_Forall_insert_2; [cbn; lia|done].
  - destruct Hr' as [-> | (r & -> & Hrange)]; [done|]. by apply map_Forall_insert_2.
Qed.

Lemma keepsWellFormed_checkBlocked req next :
  (forall r, keepsWellFormed (next r)) -> keepsWellFormed (checkBlocked req next).
Proof.
  intros Hn w Hw. rewrite checkBlocked_run. cbv zeta.
  destruct (stillBlocked _ _); [exact Hw|].
  apply Hn.
  destruct (passed_world_keeps w (getUserKey req) (clock (tick w))) as (_ & Hr' & _ & _ & Hp').
  destruct Hw as [Hp Hr]. split; [|by rewrite Hr'].
  destruct Hp' as [-> | (e & He & ->)]; [done|].
  apply map_Forall_insert_2; [|done].
  apply (map_Forall_lookup_1 _ _ _ _ Hp He).
Qed.

Lemma keepsWellFormed_protectedRoute store windowMs max reward req :
  keepsWellFormed (protectedRoute store windowMs max reward req).
Proof.
  unfold protectedRoute, detectTorVpn. apply keepsWellFormed_checkBlocked. intros r.
  unfold makeLimiter, rateLimit. intros w Hw.
  rewrite bind_nowMs, bind_gets, bind_modify.
  match goal with |- context [if ?b then _ else _] => destruct b end.
  - apply keepsWellFormed_handler. exact Hw.
  - destruct reward as [[d text]|]; cbn [rewardHandler]; [|exact Hw].
    apply keepsWellFormed_bind.
    + apply keepsWellFormed_updateReputation.
    + intros a v Hv. rewrite bind_run. cbn [ret snd]. by rewrite getReputation_pure.
    + exact Hw.
Qed.

Lemma keepsWellFormed_serve ep req : keepsWellFormed (serve ep req).
Proof.
  destruct ep; cbn [serve].
  - by intros w.
  - exact (keepsWellFormed_protectedRoute Report (24 * 60 * 60 * 1000) 5
             (Some (5, reportMessage)) req).
  - exact (keepsWellFormed_protectedRoute Browse (60 * 60 * 1000) 100 None req).
  - exact (keepsWellFormed_protectedRoute Upload (24 * 60 * 60 * 1000) 10
             (Some (2, uploadMessage)) req).
  - by intros w.
  - intros w [Hp Hr]. unfold post_admin_clear, detectTorVpn, setIsTorVpn. cbn [body_user].
    destruct (body_user req) as [[|c u]|]; try done.
    cbn [JS.truthy_str]. rewrite !bind_modify. cbn [ret snd].
    split; cbn [setPenalties setReputation penalties reputation];
      by apply map_Forall_delete.
Qed.

(** X15: whatever requests the server is sent, on whatever routes and at
    whatever times, every penalty record it holds counts at least one
    violation and every score it holds lies in [0, 200]; this is so from
    the empty tables the process starts with, and from any tables that
    have the property. *)
Theorem served_records_stay_well_formed (trace : list (endpoint * request)) :
  wellFormed (snd (serveAll trace emptyWorld)) /\
  (forall w, wellFormed w -> wellFormed (snd (serveAll trace w))).
Proof.
  assert (forall w, wellFormed w -> wellFormed (snd (serveAll trace w))) as H.
  { induction trace as [|[ep r] rest IH]; intros w Hw; [done|].
    cbn [serveAll]. rewrite bind_run, bind_run. cbn [ret snd].
    apply IH, keepsWellFormed_serve, Hw. }
  split; [|exact H]. apply H. split; cbn; apply map_Forall_empty.
Qed.

(** ** Keys that name an inherited property *)

Lemma truthy_inherited_proto {R} w key :
  key ∈ protoNames -> truthyEntry (@inheritedEntry R w key) = true.
Proof. intros Hin. unfold inheritedEntry. by rewrite bool_decide_eq_true_2. Qed.

(** X19: a key that is the name of one of the twelve properties of
    [Object.prototype] never gets a record.  When the tables hold none for
    it, [updateReputation] and the violation handler leave both tables as
    they are (what they compute is set on the inherited object instead),
    the administrative clear of the key changes nothing at all, and as
    long as nothing has been set on the inherited objects [getReputation]
    returns [undefined] for the key. *)
Theorem inherited_name_never_gets_a_record key w :
  key ∈ protoNames ->
  penalties w !! key = None ->
  reputation w !! key = None ->
  (forall change,
      penalties (snd (updateReputation key change w)) = penalties w /\
      reputation (snd (updateReputation key change w)) = reputation w) /\
  (forall max req, getUserKey req = key ->
      thresholdExceeded (fst (rateLimitHandlerFactory max req w)) = true /\
      penalties (snd (rateLimitHandlerFactory max req w)) = penalties w /\
      reputation (snd (rateLimitHandlerFactory max req w)) = reputation w) /\
  (forall req, body_user req = Some key -> snd (post_admin_clear req w) = w) /\
  (inherited w = ∅ -> getReputation key w = (JS.Undefined, w)).
Proof.
  intros Hin Hp Hr. split; [|split; [|split]].
  - intros change.
    destruct (updateReputation_no_record key change w Hr (truthy_inherited_proto w key Hin))
      as [inh ->].
    by split.
  - intros max req Hk. rewrite <- Hk in Hp, Hr, Hin.
    destruct (rateLimitHandlerFactory_no_record max req w Hp
                (truthy_inherited_proto w _ Hin)) as (inh & blockMs & ->).
    destruct (answer429_shape max req blockMs
                (MkWorld (penalties w) (reputation w) (limiterStore w) inh (S (tick w))))
      as [H1 ->].
    split; [exact H1|].
    match goal with |- context [updateReputation ?k ?c ?W] =>
      destruct (updateReputation_no_record k c W Hr (truthy_inherited_proto W _ Hin))
        as [inh' ->] end.
    by split.
  - intros req Hu.
    unfold post_admin_clear, detectTorVpn, setIsTorVpn. cbn [body_user]. rewrite Hu.
    destruct (JS.truthy_str key); [|done].
    rewrite !bind_modify. cbn [ret snd].
    unfold setReputation, setPenalties.
    cbn [penalties reputation limiterStore inherited tick].
    rewrite !delete_id by done. by destruct w.
  - intros Hinh. unfold getReputation. rewrite bind_gets.
    unfold readReputation, gets, reputationEntry. rewrite Hr.
    rewrite (truthy_inherited_proto w key Hin).
    unfold inheritedEntry. rewrite bool_decide_eq_true_2 by done.
    rewrite Hr. cbn [readEntry]. unfold objField, protoField, objectPrototype, ownFields.
    rewrite Hinh, !lookup_empty. reflexivity.
Qed.

End Server.

(** * Instances on sample data *)

(** C3 on "bob", blocked for another minute. *)
Lemma blocked_bob_is_refused :
  let next := fun _ : request => ret RespHealth in
  checkBlocked sampleClock sampleIpKey (requestOf "bob") next bobBlocked =
    (Resp403 "You are temporarily blocked. Please try again in 1 minute." 1 60,
     advance bobBlocked) /\
  violationsOf
    (snd (runAll (fun r => checkBlocked sampleClock sampleIpKey r next)
                 (replicate 3 (requestOf "bob")) bobBlocked)) "bob" = 1 /\
  is403 (fst (checkBlocked sampleClock sampleIpKey (requestOf "bob") next bobBlocked)) = true.
Proof.
  intros next.
  assert (penalties bobBlocked !! getUserKey sampleIpKey (requestOf "bob") =
          Some (Penalty 1 1700000060000)) as H1 by (vm_compute; reflexivity).
  assert (blockedUntil (Penalty 1 1700000060000) <> 0) as H2 by (simpl; lia).
  assert (sampleClock (tick bobBlocked) < blockedUntil (Penalty 1 1700000060000)) as H3
    by (vm_compute; reflexivity).
  destruct (checkBlocked_denies_while_blocked sampleClock sampleIpKey (requestOf "bob")
              next bobBlocked _ H1 H2 H3) as (A & B & C).
  split; [exact A|]. split.
  - destruct (B (replicate 3 (requestOf "bob"))) as (_ & _ & _ & V).
    + repeat constructor.
    + intros i Hi. simpl in Hi. unfold sampleClock. simpl. lia.
    + exact V.
  - destruct (C (requestOf "bob") bobBlocked) as [_ C']; [reflexivity|].
    apply (C' _ H1). split; [exact H2|exact H3].
Defined.

(** C4 on "bob", whose block ran out. *)
Lemma expired_bob_is_let_through :
  let next := fun _ : request => ret RespHealth in
  checkBlocked sampleClock sampleIpKey (requestOf "bob") next bobExpired =
    next (requestOf "bob")
         (MkWorld (<["bob"%string := Penalty 2 0]> (penalties bobExpired)) ∅ ∅ ∅ 1) /\
  violationsOf bobExpired "bob" <=
    violationsOf (snd (serve sampleClock sampleIpKey PostReport (requestOf "bob") bobExpired))
                 "bob".
Proof.
  intros next.
  assert (penalties bobExpired !! getUserKey sampleIpKey (requestOf "bob") =
          Some (Penalty 2 1699999000000)) as H1 by (vm_compute; reflexivity).
  assert (blockedUntil (Penalty 2 1699999000000) <= sampleClock (tick bobExpired)) as H2
    by (vm_compute; discriminate).
  destruct (expired_block_lifted_count_kept sampleClock sampleIpKey (requestOf "bob")
              next bobExpired _ H1 H2) as (A & B).
  split; [exact A|]. apply B. intros H. discriminate H.
Defined.

(** C5 on a report of "bob", blocked for another minute. *)
Lemma refused_report_changes_nothing :
  is403 (fst (serve sampleClock sampleIpKey PostReport (requestOf "bob") bobBlocked)) = true /\
  snd (serve sampleClock sampleIpKey PostReport (requestOf "bob") bobBlocked) =
    advance bobBlocked.
Proof.
  assert (penalties bobBlocked !!
            getUserKey sampleIpKey
              (setIsTorVpn (suspicious (headers (requestOf "bob"))) (requestOf "bob")) =
          Some (Penalty 1 1700000060000)) as H1 by (vm_compute; reflexivity).
  assert (blockedUntil (Penalty 1 1700000060000) <> 0) as H2 by (simpl; lia).
  assert (sampleClock (tick bobBlocked) < blockedUntil (Penalty 1 1700000060000)) as H3
    by (vm_compute; reflexivity).
  destruct (deny_leaves_state_untouched sampleClock sampleIpKey PostReport (requestOf "bob")
              bobBlocked _ eq_refl H1 H2 H3) as (A & B & _).
  split; [exact A|exact B].
Defined.

(** C6 on a reward of 5 for "alice", who has no record. *)
Lemma alice_reward_is_recorded :
  let w' := snd (updateReputation sampleClock "alice" 5 emptyWorld) in
  reputation w' !! "alice"%string = Some (Rep 105 1700000001000) /\
  getReputation "alice" w' = (JS.Num 105, w').
Proof.
  intros w'.
  assert (ordinaryKey "alice" = true) as Hk by (vm_compute; reflexivity).
  destruct (updateReputation_effect sampleClock "alice" 5 emptyWorld Hk)
    as (_ & (t & Hr & Ht) & _ & _ & Hg).
  split; [|exact Hg].
  fold w' in Hr, Ht. rewrite Hr, Ht. rewrite lookup_insert_eq. vm_compute. reflexivity.
Defined.


(** C9 on a proxy chain of two hops and on a request without the headers. *)
Lemma two_hops_are_suspicious :
  suspicious {[ "x-forwarded-for"%string := "10.0.0.1, 10.0.0.2"%string ]} = true /\
  suspicious (headers (requestOf "alice")) = false.
Proof.
  split.
  - destruct (suspicion_needs_nonempty_header
                (Request {[ "x-forwarded-for"%string := "10.0.0.1, 10.0.0.2"%string ]}
                         None None)
                (fun _ => ret RespHealth) emptyWorld) as (_ & H & _).
    apply (H "10.0.0.1, 10.0.0.2"%string); [reflexivity|simpl; lia].
  - destruct (suspicion_needs_nonempty_header (requestOf "alice")
                (fun _ => ret RespHealth) emptyWorld) as (_ & _ & H & _).
    apply H; reflexivity.
Defined.

(** C10 on "bob", blocked for another twenty seconds. *)
Lemma twenty_seconds_report_zero_minutes :
  exists s,
    checkBlocked sampleClock sampleIpKey (requestOf "bob") (fun _ => ret RespHealth)
                 bobAlmostFree =
      (Resp403 "You are temporarily blocked. Please try again in 0 minutes." 0 s,
       advance bobAlmostFree).
Proof.
  assert (penalties bobAlmostFree !! getUserKey sampleIpKey (requestOf "bob") =
          Some (Penalty 1 1700000020000)) as H1 by (vm_compute; reflexivity).
  assert (blockedUntil (Penalty 1 1700000020000) <> 0) as H2 by (simpl; lia).
  assert (sampleClock (tick bobAlmostFree) < blockedUntil (Penalty 1 1700000020000)) as H3
    by (vm_compute; reflexivity).
  destruct (deny_reports_rounded_minutes sampleClock sampleIpKey (requestOf "bob")
              (fun _ => ret RespHealth) bobAlmostFree _ H1 H2 H3)
    as ((m & s & A & _ & Z0) & _).
  assert (m = 0) as Hm by (apply Z0; vm_compute; reflexivity).
  exists s. rewrite A, Hm. reflexivity.
Defined.

(** * Where the program departs from a statement *)

(** C1: a first violation under the key [constructor], which names a
    property that the table inherits from [Object.prototype].  The test
    [!penalties[key]] finds the inherited function and creates no record;
    the count read from it is [undefined], so the count becomes [NaN],
    which is neither 1 nor 2: the first violation of the key blocks it for
    sixty minutes, not one, and the 429 answer reports [NaN] violations and
    a [NaN] reputation.  The expiry is set on the inherited object, where
    [checkBlocked] finds it. *)
Theorem first_violation_of_constructor_blocks_an_hour :
  let req := requestOf "constructor" in
  let res := rateLimitHandlerFactory sampleClock sampleIpKey 5 req emptyWorld in
  getUserKey sampleIpKey req = "constructor"%string /\
  violationsOf emptyWorld "constructor" = 0 /\
  fst res =
    Resp429 "Rate limit exceeded (5 requests). You are temporarily blocked for 60 minutes."
            5 60 JS.NaN (1700000000000 + 3600000) JS.NaN None /\
  penalties (snd res) !! "constructor"%string = None /\
  blockedUntilOf (snd res) "constructor" = JS.Num (1700000000000 + 3600000) /\
  computeBlockMs (JS.Num 1) = 60000 /\
  Forall (fun name =>
            fst (rateLimitHandlerFactory sampleClock sampleIpKey 5 (requestOf name)
                   emptyWorld) =
              Resp429 "Rate limit exceeded (5 requests). You are temporarily blocked for 60 minutes."
                      5 60 JS.NaN (1700000000000 + 3600000) JS.NaN None)
         protoNames.
Proof.
  intros req res.
  split; [vm_compute; reflexivity|]. split; [vm_compute; reflexivity|].
  split; [vm_compute; reflexivity|]. split; [vm_compute; reflexivity|].
  split; [vm_compute; reflexivity|]. split; [vm_compute; reflexivity|].
  unfold protoNames. repeat (constructor; [vm_compute; reflexivity|]). constructor.
Qed.

(** C2: an adjustment of the score of the key [constructor].  The test
    [!reputation[key]] finds the inherited function and creates no record;
    the score read from it is [undefined], the sum is [NaN], and
    [Math.max (0, Math.min (200, NaN))] is [NaN]: the score kept for the
    key is no number of [0, 200], and it did not start from 100. *)
Theorem score_of_constructor_is_not_a_number :
  let w' := snd (updateReputation sampleClock "constructor" 5 emptyWorld) in
  reputation w' !! "constructor"%string = None /\
  readEntry repGet w' (reputationEntry w' "constructor") Fscore = JS.NaN /\
  fst (getReputation "constructor" w') = JS.NaN /\
  fst (getReputation "constructor" w') <> JS.Num 105 /\
  Forall (fun name =>
            fst (getReputation name
                   (snd (updateReputation sampleClock name 5 emptyWorld))) = JS.NaN)
         protoNames.
Proof.
  intros w'.
  split; [vm_compute; reflexivity|]. split; [vm_compute; reflexivity|].
  split; [vm_compute; reflexivity|]. split; [vm_compute; discriminate|].
  unfold protoNames. repeat (constructor; [vm_compute; reflexivity|]). constructor.
Qed.

(** C7: reading the reputation of the key [toString], which has no record.
    The test [reputation[userKey]] finds the inherited function, so the
    default is not taken and the result is the [score] of that function:
    [undefined], not 100. *)
Theorem reputation_of_toString_is_undefined :
  reputation emptyWorld !! "toString"%string = None /\
  getReputation "toString" emptyWorld = (JS.Undefined, emptyWorld) /\
  fst (getReputation "toString" emptyWorld) <> JS.Num 100 /\
  Forall (fun name => reputation emptyWorld !! name = None /\
                      fst (getReputation name emptyWorld) = JS.Undefined)
         protoNames.
Proof.
  split; [vm_compute; reflexivity|]. split; [vm_compute; reflexivity|].
  split; [vm_compute; discriminate|].
  unfold protoNames. repeat (constructor; [vm_compute; split; reflexivity|]). constructor.
Qed.

(** C4: the administrative clear deletes the record of the key, so the
    count on record for "bob" falls from 2 to none, and his next violation
    is counted as a first one. *)
Lemma admin_clear_lowers_violation_count :
  let w' := snd (serve sampleClock sampleIpKey PostAdminClear (clearRequest "bob")
                       bobExpired) in
  violationsOf bobExpired "bob" = 2 /\
  penalties w' !! "bob"%string = None /\
  violationsOf w' "bob" = 0 /\
  violationsOf (snd (rateLimitHandlerFactory sampleClock sampleIpKey 5 (requestOf "bob") w'))
               "bob" = 1 /\
  ~ (forall ep req w k,
        violationsOf w k <= violationsOf (snd (serve sampleClock sampleIpKey ep req w)) k).
Proof.
  intros w'.
  split; [vm_compute; reflexivity|]. split; [vm_compute; reflexivity|].
  split; [vm_compute; reflexivity|]. split; [vm_compute; reflexivity|].
  intros H.
  specialize (H PostAdminClear (clearRequest "bob") bobExpired "bob"%string).
  vm_compute in H. apply H. reflexivity.
Qed.

(** C6: the call of [updateReputation] evaluates to [undefined], not to the
    score 105 it has just stored. *)
Lemma updateReputation_returns_undefined :
  let res := updateReputation sampleClock "alice" 5 emptyWorld in
  fst res = JS.Undefined /\
  fst (getReputation "alice" (snd res)) = JS.Num 105 /\
  fst res <> JS.Num 105.
Proof.
  intros res.
  split; [vm_compute; reflexivity|]. split; [vm_compute; reflexivity|].
  vm_compute. discriminate.
Qed.

(** C9: a [via] header that is present with an empty value does not raise
    the flag. *)
Lemma empty_header_is_not_suspicious :
  let hs : gmap string string := {[ "via"%string := EmptyString ]} in
  hs !! "via"%string = Some EmptyString /\
  suspicious hs = false /\
  ~ (forall hs' : gmap string string,
        is_Some (hs' !! "via"%string) -> suspicious hs' = true).
Proof.
  intros hs.
  split; [vm_compute; reflexivity|]. split; [vm_compute; reflexivity|].
  intros H. specialize (H hs (ex_intro _ EmptyString eq_refl)).
  vm_compute in H. discriminate H.
Qed.

(** * Instances of the further properties *)

(** X1 on the counts 1, 2 and 0, and on a count that is no number. *)
Lemma tiers_on_small_counts :
  computeBlockMs (JS.Num 1) <= computeBlockMs (JS.Num 2) /\
  computeBlockMs (JS.Num 0) = 3600000 /\
  computeBlockMs JS.NaN = 3600000.
Proof.
  destruct computeBlockMs_tiers as (A & _ & C). split; [|split].
  - apply A; lia.
  - apply C; discriminate.
  - apply C; discriminate.
Defined.

(** X2 around half a minute. *)
Lemma minutes_around_half_a_minute :
  humanMinutes 29999 <= humanMinutes 30000 /\ 0 <= humanMinutes 29999.
Proof.
  destruct humanMinutes_monotone_exact as (A & _ & C). split.
  - apply A; lia.
  - apply C; lia.
Defined.

(** X3 on an upper-case language tag and on a request without the header. *)
Lemma arabic_tag_in_upper_case :
  isArabic (Request {[ "accept-language"%string := "AR-sa"%string ]} None None) = true /\
  isArabic (requestOf "alice") = false.
Proof.
  split.
  - destruct (isArabic_iff
                (Request {[ "accept-language"%string := "AR-sa"%string ]} None None))
      as (H & _). apply H.
    exists "A"%char, "R"%char, "-sa"%string. split; [reflexivity|]. split; right; reflexivity.
  - destruct (isArabic_iff (requestOf "alice")) as (_ & H & _). apply H. reflexivity.
Defined.

(** X4 on the third violation of "bob". *)
Lemma third_violation_of_bob_is_reported :
  fst (rateLimitHandlerFactory sampleClock sampleIpKey 5 (requestOf "bob") bobExpired) =
    Resp429 "Rate limit exceeded (5 requests). You are temporarily blocked for 60 minutes."
            5 60 (JS.Num 3) (1700000000000 + 3600000) (JS.Num 90) None.
Proof.
  assert (ordinaryKey (getUserKey sampleIpKey (requestOf "bob")) = true) as Hk
    by (vm_compute; reflexivity).
  destruct (handler_reports_stored_state sampleClock sampleIpKey 5 (requestOf "bob")
              bobExpired Hk) as (e & r & m & old & Hp & Hr & Hres & _ & Hm & _).
  vm_compute in Hp. injection Hp as <-.
  vm_compute in Hr. injection Hr as <-.
  assert (m = 60) as ->
    by (cbn [blockedUntil] in Hm; unfold sampleClock, bobExpired in Hm;
        cbn [tick] in Hm; lia).
  rewrite Hres. vm_compute. reflexivity.
Defined.

(** X5 on a violation of "bob": "alice" is not touched. *)
Lemma violation_of_bob_spares_alice :
  penalties (snd (rateLimitHandlerFactory sampleClock sampleIpKey 5 (requestOf "bob")
                    bobExpired)) !! "alice"%string = None.
Proof.
  assert ("alice"%string <> getUserKey sampleIpKey (requestOf "bob")) as H
    by (vm_compute; discriminate).
  destruct (handler_leaves_other_keys sampleClock sampleIpKey 5 (requestOf "bob")
              bobExpired "alice" H) as (A & _).
  rewrite A. reflexivity.
Defined.

(** X6 on the third violation of "bob", followed by a browse request. *)
Lemma browse_after_violation_is_refused :
  let w' := snd (rateLimitHandlerFactory sampleClock sampleIpKey 5 (requestOf "bob")
                   bobExpired) in
  serve sampleClock sampleIpKey GetBrowse (requestOf "bob") w' =
    (Resp403 "You are temporarily blocked. Please try again in 60 minutes." 60 3597,
     advance w').
Proof.
  intros w'.
  assert (ordinaryKey (getUserKey sampleIpKey (requestOf "bob")) = true) as Hk
    by (vm_compute; reflexivity).
  assert (sampleClock (tick bobExpired) +
          computeBlockMs
            (JS.Num (violationsOf bobExpired (getUserKey sampleIpKey (requestOf "bob")) + 1))
          <> 0) as H1 by (vm_compute; discriminate).
  assert (getUserKey sampleIpKey (tagged (requestOf "bob")) =
          getUserKey sampleIpKey (requestOf "bob")) as H2 by (vm_compute; reflexivity).
  assert (sampleClock (tick w') <
          sampleClock (tick bobExpired) +
          computeBlockMs
            (JS.Num (violationsOf bobExpired (getUserKey sampleIpKey (requestOf "bob")) + 1)))
    as H3 by (vm_compute; reflexivity).
  pose proof (violation_blocks_every_protected_route sampleClock sampleIpKey 5
                (requestOf "bob") bobExpired GetBrowse (requestOf "bob") Hk H1 eq_refl H2 H3)
    as A.
  fold w' in A. rewrite A. vm_compute. reflexivity.
Defined.

(** X7 on "bob", whose block ran out. *)
Lemma expired_bob_passes_twice :
  let next := fun _ : request => ret RespHealth in
  exists w1,
    checkBlocked sampleClock sampleIpKey (requestOf "bob") next bobExpired = (RespHealth, w1) /\
    checkBlocked sampleClock sampleIpKey (requestOf "bob") next w1 = (RespHealth, advance w1).
Proof.
  intros next.
  assert (penalties bobExpired !! getUserKey sampleIpKey (requestOf "bob") = None ->
          fieldOfName (getUserKey sampleIpKey (requestOf "bob")) = None) as H0
    by (intros _; vm_compute; reflexivity).
  assert (stillBlocked (blockedUntilOf bobExpired (getUserKey sampleIpKey (requestOf "bob")))
                       (sampleClock (tick bobExpired)) = false) as H
    by (vm_compute; reflexivity).
  destruct (admitted_key_stays_clear sampleClock sampleIpKey (requestOf "bob") next
              bobExpired H0 H) as (w1 & A & _ & C).
  exists w1. split; [exact A|exact (C next)].
Defined.

(** X8 on the adjustments 5, 5, -10, 2 of "alice". *)
Lemma alice_adjustments_add_up :
  fst (getReputation "alice"
         (snd (adjustAll sampleClock "alice" [5; 5; -10; 2] emptyWorld))) = JS.Num (100 + 2).
Proof.
  assert (ordinaryKey "alice" = true) as Hk by (vm_compute; reflexivity).
  refine (proj2 (adjustments_add_up sampleClock "alice" [5; 5; -10; 2] emptyWorld Hk _)).
  intros n Hn.
  do 5 (destruct n as [|n]; [vm_compute; split; discriminate|]).
  simpl in Hn. lia.
Defined.

(** X9 on a penalty and a reward of "alice". *)
Lemma penalty_scores_below_reward :
  exists low high,
    fst (getReputation "alice" (snd (updateReputation sampleClock "alice" (-10) emptyWorld))) =
      JS.Num low /\
    fst (getReputation "alice" (snd (updateReputation sampleClock "alice" 5 emptyWorld))) =
      JS.Num high /\
    low <= high /\ low <= 100.
Proof.
  assert (ordinaryKey "alice" = true) as Hk by (vm_compute; reflexivity).
  destruct (adjustment_is_bounded_and_monotone sampleClock "alice" emptyWorld (-10) 5 Hk)
    as (old & new & new' & H0 & H1 & H2 & A & B).
  exists new, new'. split; [exact H1|]. split; [exact H2|]. split; [apply A; lia|].
  assert (old = 100) as -> by (vm_compute in H0; congruence).
  destruct B as (_ & _ & B); [lia|]. apply B. lia.
Defined.

(** X10 on clearing "bob" while he is blocked. *)
Lemma cleared_bob_is_admitted :
  let w' := snd (post_admin_clear (clearRequest "bob") bobBlocked) in
  let next := fun _ : request => ret RespHealth in
  fst (getReputation "bob" w') = JS.Num 100 /\
  checkBlocked sampleClock sampleIpKey (requestOf "bob") next w' = (RespHealth, advance w').
Proof.
  intros w' next.
  assert ("bob"%string <> EmptyString) as Hne by discriminate.
  assert (ordinaryKey "bob" = true) as Hk by (vm_compute; reflexivity).
  destruct (admin_clear_makes_key_fresh sampleClock sampleIpKey (clearRequest "bob") "bob"
              bobBlocked eq_refl Hne Hk) as (_ & _ & A & B & _).
  split; [exact A|].
  apply (B (requestOf "bob") next). vm_compute. reflexivity.
Defined.

(** X11 on a clear request without a user, and on clearing "carol", who
    has no records. *)
Lemma clear_without_user_is_rejected :
  post_admin_clear (Request ∅ None None) bobBlocked = (Resp400, bobBlocked) /\
  snd (post_admin_clear (clearRequest "carol") bobBlocked) = bobBlocked.
Proof.
  split.
  - destruct (admin_clear_edge_cases (Request ∅ None None) bobBlocked) as (A & _).
    apply A. left. reflexivity.
  - destruct (admin_clear_edge_cases (clearRequest "carol") bobBlocked) as (_ & _ & C).
    apply (C "carol"%string); vm_compute; reflexivity.
Defined.

(** X12 on "bob", blocked, asking for the snapshot. *)
Lemma blocked_bob_reads_snapshot :
  serve sampleClock sampleIpKey GetAdminPenalties (requestOf "bob") bobBlocked =
    (RespSnapshot (penalties bobBlocked) (reputation bobBlocked), bobBlocked).
Proof.
  destruct (unprotected_routes_never_refuse sampleClock sampleIpKey GetAdminPenalties
              (requestOf "bob") bobBlocked eq_refl) as (_ & _ & _ & _ & _ & A).
  apply A. reflexivity.
Defined.

(** X13 on a first report of "alice": served, with the reward of 5. *)
Lemma first_report_of_alice_is_rewarded :
  fst (getReputation "alice" emptyWorld) = JS.Num 100 /\
  fst (post_report sampleClock sampleIpKey (requestOf "alice") emptyWorld) =
    Resp200 (Some "Report received."%string) (Some (JS.Num 105)) (Some false).
Proof.
  assert (ordinaryKey (getUserKey sampleIpKey (tagged (requestOf "alice"))) = true) as Hk
    by (vm_compute; reflexivity).
  pose proof (protected_request_outcomes sampleClock sampleIpKey Report
                (24 * 60 * 60 * 1000) 5 (Some (5, reportMessage))
                (requestOf "alice") emptyWorld Hk) as [A B].
  split; [exact A|].
  change (post_report sampleClock sampleIpKey) with
    (protectedRoute sampleClock sampleIpKey Report (24 * 60 * 60 * 1000) 5
       (Some (5, reportMessage))).
  destruct (fst (protectedRoute sampleClock sampleIpKey Report (24 * 60 * 60 * 1000) 5
                   (Some (5, reportMessage)) (requestOf "alice") emptyWorld))
    eqn:E; vm_compute in E; try discriminate E.
  destruct B as (_ & -> & -> & _ & ->). vm_compute. reflexivity.
Defined.

(** X14 on two reports of "bob", one of them sent through a proxy. *)
Lemma proxy_header_changes_nothing :
  let direct := requestOf "bob" in
  let proxied :=
    Request {[ "x-user-id"%string := "bob"%string; "via"%string := "1.1 proxy"%string ]}
            None None in
  snd (serve sampleClock sampleIpKey PostReport direct emptyWorld) =
    snd (serve sampleClock sampleIpKey PostReport proxied emptyWorld) /\
  withoutFlag (fst (serve sampleClock sampleIpKey PostReport direct emptyWorld)) =
    withoutFlag (fst (serve sampleClock sampleIpKey PostReport proxied emptyWorld)).
Proof.
  intros direct proxied.
  assert (getUserKey sampleIpKey (tagged direct) = getUserKey sampleIpKey (tagged proxied))
    as H by (vm_compute; reflexivity).
  destruct (same_key_same_treatment sampleClock sampleIpKey PostReport direct proxied
              emptyWorld eq_refl H) as [A B].
  split; [exact A|]. apply B. vm_compute. reflexivity.
Defined.

(** X15 on a report followed by a clear, from tables that hold "bob". *)
Lemma records_after_report_and_clear :
  wellFormed (snd (serveAll sampleClock sampleIpKey
                     [(PostReport, requestOf "alice"); (PostAdminClear, clearRequest "bob")]
                     bobBlocked)).
Proof.
  apply (served_records_stay_well_formed sampleClock sampleIpKey
           [(PostReport, requestOf "alice"); (PostAdminClear, clearRequest "bob")]).
  split.
  - apply map_Forall_singleton. simpl. lia.
  - apply map_Forall_empty.
Defined.

(** X16 on the adjustments 50, 70, -300 of "alice", and on -300 alone. *)
Lemma score_bounds_alice :
  (exists r, reputation (snd (adjustAll sampleClock "alice" ([50; 70] ++ [-300]) emptyWorld))
               !! "alice"%string = Some r /\ 0 <= score r <= 200) /\
  (exists r, reputation (snd (adjustAll sampleClock "alice" [-300] emptyWorld))
               !! "alice"%string = Some r /\ score r = Z.max 0 (Z.min 200 (100 + -300))).
Proof.
  assert (ordinaryKey "alice" = true) as Hk by (vm_compute; reflexivity).
  destruct (score_stays_within_bounds sampleClock "alice" [50; 70] (-300) emptyWorld Hk)
    as [H1 H2].
  split; [exact H1|]. apply H2. reflexivity.
Defined.

(** X17 on "carol", who has no record. *)
Lemma carol_reads_default :
  getReputation "carol" emptyWorld = (JS.Num 100, emptyWorld) /\
  exists ps rs,
    fst (get_admin_penalties (clearRequest "nobody")
           (snd (getReputation "carol" emptyWorld))) = RespSnapshot ps rs /\
    rs !! "carol"%string = None.
Proof.
  assert (ordinaryKey "carol" = true) as Hk by (vm_compute; reflexivity).
  destruct (getReputation_absent_is_pure "carol" emptyWorld (clearRequest "nobody") Hk eq_refl)
    as (A & ps & rs & B & C & _).
  split; [exact A|]. exists ps, rs. split; [exact B|exact C].
Defined.

(** X18 at the third violation of "bob": a sixty-minute block. *)
Lemma escalation_third_violation :
  penalties (snd (rateLimitHandlerFactory sampleClock sampleIpKey 5
                    (requestOf "bob") bobExpired)) !! "bob"%string =
    Some (Penalty 3 (1700000000000 + 3600000)).
Proof.
  assert (ordinaryKey (getUserKey sampleIpKey (requestOf "bob")) = true) as Hk
    by (vm_compute; reflexivity).
  assert (violationsOf bobExpired (getUserKey sampleIpKey (requestOf "bob")) = 3 - 1) as H
    by (vm_compute; reflexivity).
  destruct (escalation_follows_violation_count sampleClock sampleIpKey 5
              (requestOf "bob") bobExpired 3 Hk H) as (d & _ & _ & _ & Hd & Hp & _).
  rewrite (Hd ltac:(lia)) in Hp. exact Hp.
Defined.

(** X19 on the key [constructor], from the empty tables. *)
Lemma constructor_never_gets_a_record :
  penalties (snd (rateLimitHandlerFactory sampleClock sampleIpKey 5
                    (requestOf "constructor") emptyWorld)) = ∅ /\
  getReputation "constructor" emptyWorld = (JS.Undefined, emptyWorld).
Proof.
  assert ("constructor"%string ∈ protoNames) as Hin by (apply list_elem_of_In; simpl; auto).
  destruct (inherited_name_never_gets_a_record sampleClock sampleIpKey "constructor"
              emptyWorld Hin eq_refl eq_refl) as (_ & A & _ & B).
  split.
  - destruct (A 5 (requestOf "constructor")) as (_ & A' & _); [reflexivity|exact A'].
  - apply B. reflexivity.
Defined.

(** X20: a violation under the key [constructor] followed by the
    administrative clear of that key.  The clear answers that it cleared
    the key and changes nothing, because the block was not stored in the
    table but on the function that the table inherits; the key is still
    refused on the browse route. *)
Theorem clear_does_not_unblock_inherited_name :
  let w1 := snd (rateLimitHandlerFactory sampleClock sampleIpKey 5
                   (requestOf "constructor") emptyWorld) in
  post_admin_clear (clearRequest "constructor") w1 = (RespCleared "constructor", w1) /\
  fst (get_browse sampleClock sampleIpKey (requestOf "constructor") w1) =
    Resp403 "You are temporarily blocked. Please try again in 60 minutes." 60 3598.
Proof. vm_compute. split; reflexivity. Qed.
